(** * A shallow embedding of [src/script.js]

    The script is a straight-line orchestration of three.js and lil-gui:
    it builds a scene, registers a model-load callback, a resize handler and
    the panel controls, and starts a frame loop.  This file embeds

    - the scene graph the script populates (a tree of [Object3D] nodes whose
      materials live in a shared store, because several meshes may point at
      the same material object),
    - [updateAllMaterials] and the traversal it runs,
    - the load callback, the resize handler, the panel handlers and [tick],
      as functions on an explicit program state that also return the
      library calls they issue.

    JavaScript numbers are IEEE-754 binary64 values; they are embedded as
    primitive floats, so [Infinity] and [NaN] behave as in the script.
    Equality in the statements is Leibniz equality of float values.

    The three.js classes are external to the script.  Their constructors
    and methods are embedded only as far as the script observes them; each
    such definition says which library behaviour it stands for. *)

From Stdlib Require Import ZArith Uint63.
From Stdlib Require Import Floats.PrimFloat Floats.SpecFloat Floats.FloatOps Floats.FloatAxioms.
From Stdlib Require Import Strings.String.
From stdpp Require Import gmap list.

Set Default Proof Using "Type".

(** ** Numbers *)

Module Math.

(** [Math.min]: NaN if an argument is NaN; [-0] counts as smaller
    than [+0]. *)
Definition min (a b : float) : float :=
  if is_nan a || is_nan b then nan
  else if (a <? b)%float then a
  else if (b <? a)%float then b
  else if get_sign a then a else b.

(** [Math.max], symmetric to [Math.min]. *)
Definition max (a b : float) : float :=
  if is_nan a || is_nan b then nan
  else if (a <? b)%float then b
  else if (b <? a)%float then a
  else if get_sign a then b else a.

(** [Math.floor]: NaN, the infinities, the zeros and the integers are
    returned as they are; otherwise the largest integer below.  A float
    below 2^53 in magnitude with a fraction is [m * 2^e] with [e < 0];
    its floor is the arithmetic shift of the signed mantissa. *)
Definition floor (a : float) : float :=
  match Prim2SF a with
  | S754_finite s m e =>
      if (0 <=? e)%Z then a
      else
        let v := if s then Z.neg m else Z.pos m in
        let n := Z.shiftr v (- e) in
        if (n <? 0)%Z then (- of_uint63 (Uint63.of_Z (- n)))%float
        else of_uint63 (Uint63.of_Z n)
  | _ => a
  end.

End Math.

Record Vector3 := mkVector3 { x : float; y : float; z : float }.

Definition Vector3_set (a b c : float) : Vector3 := mkVector3 a b c.

Definition set_x (v : float) (p : Vector3) : Vector3 :=
  {| x := v; y := y p; z := z p |}.

Definition set_y (v : float) (p : Vector3) : Vector3 :=
  {| x := x p; y := v; z := z p |}.

Definition set_z (v : float) (p : Vector3) : Vector3 :=
  {| x := x p; y := y p; z := v |}.

(** ** Textures and materials *)

Inductive Texture :=
  | CubeTexture (urls : list string)
  | ImageTexture (url : string).

(** Material classes a loaded model may carry.  [MeshPhysicalMaterial]
    extends [MeshStandardMaterial] in three.js. *)
Inductive MaterialType :=
  | MeshStandardMaterial
  | MeshPhysicalMaterial
  | MeshBasicMaterial
  | MeshLambertMaterial
  | MeshPhongMaterial
  | LineBasicMaterial
  | PointsMaterial.

(** [m instanceof THREE.MeshStandardMaterial] *)
Definition instanceof_MeshStandardMaterial (t : MaterialType) : bool :=
  match t with
  | MeshStandardMaterial | MeshPhysicalMaterial => true
  | _ => false
  end.

Record Material := mkMaterial {
  mat_type : MaterialType;
  mat_name : string;
  envMap : option Texture;
  envMapIntensity : float;
  roughness : float;
  metalness : float;
  map : option Texture
}.

Definition set_envMap (t : option Texture) (m : Material) : Material :=
  {| mat_type := mat_type m; mat_name := mat_name m; envMap := t;
     envMapIntensity := envMapIntensity m; roughness := roughness m;
     metalness := metalness m; map := map m |}.

Definition set_envMapIntensity (v : float) (m : Material) : Material :=
  {| mat_type := mat_type m; mat_name := mat_name m; envMap := envMap m;
     envMapIntensity := v; roughness := roughness m;
     metalness := metalness m; map := map m |}.

(** Material objects are shared by reference: the store maps a reference
    to the object it denotes. *)
Abbreviation MaterialStore := (gmap nat Material).

(** What [child.material] holds: nothing, one material object, or an
    array of material objects (an array is not an instance of any
    material class). *)
Inductive MaterialSlot :=
  | NoMaterial
  | SingleMaterial (r : nat)
  | MaterialArray (rs : list nat).

#[global] Instance MaterialSlot_eq_dec : EqDecision MaterialSlot.
Proof. solve_decision. Defined.

(** ** Scene graph *)

Inductive ObjectType :=
  | Scene
  | Group
  | PerspectiveCamera
  | DirectionalLight
  | Bone
  | Mesh
  | SkinnedMesh
  | Line
  | Points.

(** [o instanceof THREE.Mesh]; [SkinnedMesh] extends [Mesh]. *)
Definition instanceof_Mesh (t : ObjectType) : bool :=
  match t with
  | Mesh | SkinnedMesh => true
  | _ => false
  end.

Record Box3 := mkBox3 { box_min : Vector3; box_max : Vector3 }.

Record Quaternion := mkQuaternion { qx : float; qy : float; qz : float; qw : float }.

(** [new THREE.Quaternion()]: no rotation. *)
Definition Quaternion_new : Quaternion := mkQuaternion 0 0 0 1.

(** The fields of one [Object3D]; [geometry] is the local bounding box of
    the node's geometry, when it has one. *)
Record Object3DProps := mkProps {
  obj_id : nat;
  obj_type : ObjectType;
  obj_name : string;
  position : Vector3;
  quaternion : Quaternion;
  scale : Vector3;
  visible : bool;
  castShadow : bool;
  receiveShadow : bool;
  material : MaterialSlot;
  geometry : option Box3
}.

#[warnings="-register-all"]
Inductive Object3D :=
  | Object3D_node (props : Object3DProps) (children : list Object3D).

Definition props_of (o : Object3D) : Object3DProps :=
  match o with Object3D_node p _ => p end.

Definition children_of (o : Object3D) : list Object3D :=
  match o with Object3D_node _ cs => cs end.

Definition set_position (v : Vector3) (p : Object3DProps) : Object3DProps :=
  {| obj_id := obj_id p; obj_type := obj_type p; obj_name := obj_name p;
     position := v; scale := scale p; visible := visible p;
     castShadow := castShadow p; receiveShadow := receiveShadow p;
     material := material p; geometry := geometry p;
     quaternion := quaternion p |}.

Definition set_scale (v : Vector3) (p : Object3DProps) : Object3DProps :=
  {| obj_id := obj_id p; obj_type := obj_type p; obj_name := obj_name p;
     position := position p; scale := v; visible := visible p;
     castShadow := castShadow p; receiveShadow := receiveShadow p;
     material := material p; geometry := geometry p;
     quaternion := quaternion p |}.

Definition set_castShadow (b : bool) (p : Object3DProps) : Object3DProps :=
  {| obj_id := obj_id p; obj_type := obj_type p; obj_name := obj_name p;
     position := position p; scale := scale p; visible := visible p;
     castShadow := b; receiveShadow := receiveShadow p;
     material := material p; geometry := geometry p;
     quaternion := quaternion p |}.

Definition set_receiveShadow (b : bool) (p : Object3DProps) : Object3DProps :=
  {| obj_id := obj_id p; obj_type := obj_type p; obj_name := obj_name p;
     position := position p; scale := scale p; visible := visible p;
     castShadow := castShadow p; receiveShadow := b;
     material := material p; geometry := geometry p;
     quaternion := quaternion p |}.

(** [Object3D.add]: the child is pushed at the end of [children]. *)
Definition Object3D_add (child : Object3D) (parent : Object3D) : Object3D :=
  match parent with
  | Object3D_node p cs => Object3D_node p (cs ++ [child])
  end.

(** The same graph with [f] applied to the fields of every node. *)
Fixpoint Object3D_map (f : Object3DProps → Object3DProps) (o : Object3D) : Object3D :=
  match o with
  | Object3D_node p cs => Object3D_node (f p) (List.map (Object3D_map f) cs)
  end.

(** A write to the fields of the object whose [id] is [i]; ids are unique
    among the objects three.js creates. *)
Definition Object3D_update (i : nat) (f : Object3DProps → Object3DProps)
    (o : Object3D) : Object3D :=
  Object3D_map (fun p => if Nat.eqb (obj_id p) i then f p else p) o.

(** [Object3D.traverse(callback)]: the callback runs on the node, then the
    children are traversed in order.  The callback may write the node's
    own fields and a shared state [S]. *)
Section Traverse.
Context {S : Type}.
Variable callback : Object3DProps → S → Object3DProps * S.

Fixpoint traverse (o : Object3D) (s : S) : Object3D * S :=
  match o with
  | Object3D_node p cs =>
      let '(p', s1) := callback p s in
      let '(cs', s2) :=
        (fix traverse_children (l : list Object3D) (s : S) : list Object3D * S :=
           match l with
           | [] => ([], s)
           | c :: r =>
               let '(c', s') := traverse c s in
               let '(r', s'') := traverse_children r s' in
               (c' :: r', s'')
           end) cs s1 in
      (Object3D_node p' cs', s2)
  end.

Fixpoint traverse_children (l : list Object3D) (s : S) : list Object3D * S :=
  match l with
  | [] => ([], s)
  | c :: r =>
      let '(c', s') := traverse c s in
      let '(r', s'') := traverse_children r s' in
      (c' :: r', s'')
  end.

End Traverse.

(** ** Environment map (script lines 27-34) *)

Definition environmentMap : Texture :=
  CubeTexture
    [ "/textures/environmentMaps/1/px.jpg"%string;
      "/textures/environmentMaps/1/nx.jpg"%string;
      "/textures/environmentMaps/1/py.jpg"%string;
      "/textures/environmentMaps/1/ny.jpg"%string;
      "/textures/environmentMaps/1/pz.jpg"%string;
      "/textures/environmentMaps/1/nz.jpg"%string ].

(** ** The Material Updater (script lines 74-85) *)

(** [child.material instanceof THREE.MeshStandardMaterial], read through
    the store. *)
Definition material_instanceof_MeshStandardMaterial
    (h : MaterialStore) (slot : MaterialSlot) : bool :=
  match slot with
  | SingleMaterial r =>
      match h !! r with
      | Some m => instanceof_MeshStandardMaterial (mat_type m)
      | None => false
      end
  | _ => false
  end.

(** A write [child.material.f = v] through the slot. *)
Definition material_write (f : Material → Material)
    (slot : MaterialSlot) (h : MaterialStore) : MaterialStore :=
  match slot with
  | SingleMaterial r => alter f r h
  | _ => h
  end.

(** The guard of the traversal callback. *)
Definition is_standard_mesh (h : MaterialStore) (child : Object3DProps) : bool :=
  instanceof_Mesh (obj_type child)
  && material_instanceof_MeshStandardMaterial h (material child).

(** The two material assignments of the callback. *)
Definition apply_environment (intensity : float) (m : Material) : Material :=
  set_envMapIntensity intensity (set_envMap (Some environmentMap) m).

(** The two shadow assignments of the callback. *)
Definition enable_shadows (child : Object3DProps) : Object3DProps :=
  set_receiveShadow true (set_castShadow true child).

(** The arrow function passed to [scene.traverse]. *)
Definition updateMaterial_callback (intensity : float)
    (child : Object3DProps) (h : MaterialStore) : Object3DProps * MaterialStore :=
  if is_standard_mesh h child then
    (enable_shadows child,
     material_write (apply_environment intensity) (material child) h)
  else (child, h).

(** [updateAllMaterials] on the scene root and the material store;
    [intensity] is [debugObject.envMapIntensity] at the time of the call. *)
Definition updateAllMaterials (intensity : float)
    (scene : Object3D) (h : MaterialStore) : Object3D * MaterialStore :=
  traverse (updateMaterial_callback intensity) scene h.

(** *** A closed form of one pass *)

(** The node part of a pass: shadows are enabled on the matching nodes. *)
Fixpoint mark (h : MaterialStore) (o : Object3D) : Object3D :=
  match o with
  | Object3D_node p cs =>
      Object3D_node (if is_standard_mesh h p then enable_shadows p else p)
                    (List.map (mark h) cs)
  end.

(** The slot of every matching node, in traversal order. *)
Fixpoint matched_slots (h : MaterialStore) (o : Object3D) : list MaterialSlot :=
  match o with
  | Object3D_node p cs =>
      (if is_standard_mesh h p then [material p] else [])
      ++ List.flat_map (matched_slots h) cs
  end.

(** The store part of a pass: one write per matching node. *)
Definition write_all (f : Material → Material)
    (slots : list MaterialSlot) (h : MaterialStore) : MaterialStore :=
  fold_left (fun h slot => material_write f slot h) slots h.

(** Two stores agree on classes when every reference has the same
    material class in both. *)
Definition same_classes (h1 h2 : MaterialStore) : Prop :=
  ∀ r, mat_type <$> h1 !! r = mat_type <$> h2 !! r.


(** ** Matrices and bounding boxes ([THREE.Matrix4], [THREE.Box3])

    [Box3.setFromObject] walks the object and its descendants, updates
    the world matrix of each, and unions the boxes of their geometries
    transformed by it.  The arithmetic is written operation by operation
    as in three.js, since float addition is not associative and a product
    of zero and infinity is NaN. *)

(** A 4x4 matrix; [nij] is row [i], column [j] (three.js stores it by
    columns: [elements[0] = n11], [elements[1] = n21], ...,
    [elements[12] = n14]). *)
Record Matrix4 := mkMatrix4 {
  n11 : float; n12 : float; n13 : float; n14 : float;
  n21 : float; n22 : float; n23 : float; n24 : float;
  n31 : float; n32 : float; n33 : float; n34 : float;
  n41 : float; n42 : float; n43 : float; n44 : float
}.

(** [new THREE.Matrix4()]: the identity. *)
Definition Matrix4_new : Matrix4 :=
  mkMatrix4 1 0 0 0
            0 1 0 0
            0 0 1 0
            0 0 0 1.

(** [Matrix4.compose(position, quaternion, scale)] *)
Definition Matrix4_compose (pos : Vector3) (q : Quaternion) (sc : Vector3) : Matrix4 :=
  (let x2 := qx q + qx q in let y2 := qy q + qy q in let z2 := qz q + qz q in
   let xx := qx q * x2 in let xy := qx q * y2 in let xz := qx q * z2 in
   let yy := qy q * y2 in let yz := qy q * z2 in let zz := qz q * z2 in
   let wx := qw q * x2 in let wy := qw q * y2 in let wz := qw q * z2 in
   let sx := x sc in let sy := y sc in let sz := z sc in
   {| n11 := (1 - (yy + zz)) * sx;
      n21 := (xy + wz) * sx;
      n31 := (xz - wy) * sx;
      n41 := 0;
      n12 := (xy - wz) * sy;
      n22 := (1 - (xx + zz)) * sy;
      n32 := (yz + wx) * sy;
      n42 := 0;
      n13 := (xz + wy) * sz;
      n23 := (yz - wx) * sz;
      n33 := (1 - (xx + yy)) * sz;
      n43 := 0;
      n14 := x pos;
      n24 := y pos;
      n34 := z pos;
      n44 := 1 |})%float.

(** [Matrix4.multiplyMatrices(a, b)] *)
Definition Matrix4_multiplyMatrices (a b : Matrix4) : Matrix4 :=
  {| n11 := n11 a * n11 b + n12 a * n21 b + n13 a * n31 b + n14 a * n41 b;
     n12 := n11 a * n12 b + n12 a * n22 b + n13 a * n32 b + n14 a * n42 b;
     n13 := n11 a * n13 b + n12 a * n23 b + n13 a * n33 b + n14 a * n43 b;
     n14 := n11 a * n14 b + n12 a * n24 b + n13 a * n34 b + n14 a * n44 b;
     n21 := n21 a * n11 b + n22 a * n21 b + n23 a * n31 b + n24 a * n41 b;
     n22 := n21 a * n12 b + n22 a * n22 b + n23 a * n32 b + n24 a * n42 b;
     n23 := n21 a * n13 b + n22 a * n23 b + n23 a * n33 b + n24 a * n43 b;
     n24 := n21 a * n14 b + n22 a * n24 b + n23 a * n34 b + n24 a * n44 b;
     n31 := n31 a * n11 b + n32 a * n21 b + n33 a * n31 b + n34 a * n41 b;
     n32 := n31 a * n12 b + n32 a * n22 b + n33 a * n32 b + n34 a * n42 b;
     n33 := n31 a * n13 b + n32 a * n23 b + n33 a * n33 b + n34 a * n43 b;
     n34 := n31 a * n14 b + n32 a * n24 b + n33 a * n34 b + n34 a * n44 b;
     n41 := n41 a * n11 b + n42 a * n21 b + n43 a * n31 b + n44 a * n41 b;
     n42 := n41 a * n12 b + n42 a * n22 b + n43 a * n32 b + n44 a * n42 b;
     n43 := n41 a * n13 b + n42 a * n23 b + n43 a * n33 b + n44 a * n43 b;
     n44 := n41 a * n14 b + n42 a * n24 b + n43 a * n34 b + n44 a * n44 b |}%float.

(** [Vector3.applyMatrix4(m)], with its perspective divide. *)
Definition Vector3_applyMatrix4 (m : Matrix4) (v : Vector3) : Vector3 :=
  (let w := 1 / (n41 m * x v + n42 m * y v + n43 m * z v + n44 m) in
   mkVector3 ((n11 m * x v + n12 m * y v + n13 m * z v + n14 m) * w)
             ((n21 m * x v + n22 m * y v + n23 m * z v + n24 m) * w)
             ((n31 m * x v + n32 m * y v + n33 m * z v + n34 m) * w))%float.

(** [Object3D.updateWorldMatrix(false, false)]: the local matrix is
    composed from position, quaternion and scale; the world matrix is a
    copy of it for an object without a parent and the product with the
    parent's world matrix otherwise. *)
Definition matrixWorld_of (parent : option Matrix4) (p : Object3DProps) : Matrix4 :=
  let matrix := Matrix4_compose (position p) (quaternion p) (scale p) in
  match parent with
  | None => matrix
  | Some pw => Matrix4_multiplyMatrices pw matrix
  end.

(** [new THREE.Box3()]: the empty box. *)
Definition Box3_new : Box3 :=
  mkBox3 (mkVector3 infinity infinity infinity)
         (mkVector3 neg_infinity neg_infinity neg_infinity).

Definition Box3_isEmpty (b : Box3) : bool :=
  (x (box_max b) <? x (box_min b))%float
  || (y (box_max b) <? y (box_min b))%float
  || (z (box_max b) <? z (box_min b))%float.

(** [Box3.expandByPoint(p)]: [min.min(p)], [max.max(p)]. *)
Definition Box3_expandByPoint (p : Vector3) (b : Box3) : Box3 :=
  mkBox3 (mkVector3 (Math.min (x (box_min b)) (x p))
                    (Math.min (y (box_min b)) (y p))
                    (Math.min (z (box_min b)) (z p)))
         (mkVector3 (Math.max (x (box_max b)) (x p))
                    (Math.max (y (box_max b)) (y p))
                    (Math.max (z (box_max b)) (z p))).

(** [Box3.setFromPoints(points)] *)
Definition Box3_setFromPoints (points : list Vector3) : Box3 :=
  fold_left (fun b p => Box3_expandByPoint p b) points Box3_new.

(** [Box3.applyMatrix4(m)]: an empty box is left alone; otherwise the
    eight corners are transformed and the box is set from them. *)
Definition Box3_applyMatrix4 (m : Matrix4) (b : Box3) : Box3 :=
  if Box3_isEmpty b then b else
  let lo := box_min b in
  let hi := box_max b in
  Box3_setFromPoints
    [ Vector3_applyMatrix4 m (mkVector3 (x lo) (y lo) (z lo));
      Vector3_applyMatrix4 m (mkVector3 (x lo) (y lo) (z hi));
      Vector3_applyMatrix4 m (mkVector3 (x lo) (y hi) (z lo));
      Vector3_applyMatrix4 m (mkVector3 (x lo) (y hi) (z hi));
      Vector3_applyMatrix4 m (mkVector3 (x hi) (y lo) (z lo));
      Vector3_applyMatrix4 m (mkVector3 (x hi) (y lo) (z hi));
      Vector3_applyMatrix4 m (mkVector3 (x hi) (y hi) (z lo));
      Vector3_applyMatrix4 m (mkVector3 (x hi) (y hi) (z hi)) ].

(** [Box3.union(box)]: [min.min(box.min)], [max.max(box.max)]. *)
Definition Box3_union (a b : Box3) : Box3 :=
  mkBox3 (mkVector3 (Math.min (x (box_min a)) (x (box_min b)))
                    (Math.min (y (box_min a)) (y (box_min b)))
                    (Math.min (z (box_min a)) (z (box_min b))))
         (mkVector3 (Math.max (x (box_max a)) (x (box_max b)))
                    (Math.max (y (box_max a)) (y (box_max b)))
                    (Math.max (z (box_max a)) (z (box_max b)))).

(** [Box3.expandByObject(o)]; [parent] is the world matrix of the
    object's parent, if it has one. *)
Fixpoint Box3_expandByObject (parent : option Matrix4) (o : Object3D) (b : Box3) : Box3 :=
  match o with
  | Object3D_node p cs =>
      let w := matrixWorld_of parent p in
      let b1 := match geometry p with
                | Some g => Box3_union b (Box3_applyMatrix4 w g)
                | None => b
                end in
      fold_left (fun acc c => Box3_expandByObject (Some w) c acc) cs b1
  end.

(** [new THREE.Box3().setFromObject(o)] for an object without a parent. *)
Definition Box3_setFromObject (o : Object3D) : Box3 :=
  Box3_expandByObject None o Box3_new.

(** ** Animation ([THREE.AnimationMixer]) *)

Record AnimationClip := mkClip {
  clip_uuid : nat;
  clip_name : string;
  clip_duration : float
}.

Record AnimationAction := mkAction {
  action_clip : AnimationClip;
  action_scheduled : bool
}.

(** A mixer is bound to the object given to its constructor, here by the
    object's [id]. *)
Record AnimationMixer := mkMixer {
  mixer_root : nat;
  mixer_actions : list AnimationAction;
  mixer_time : float
}.

(** [new THREE.AnimationMixer(root)] *)
Definition AnimationMixer_new (root : Object3D) : AnimationMixer :=
  {| mixer_root := obj_id (props_of root); mixer_actions := []; mixer_time := 0 |}.

Definition same_clip (c : AnimationClip) (a : AnimationAction) : bool :=
  Nat.eqb (clip_uuid (action_clip a)) (clip_uuid c).

(** [mixer.clipAction(clip).play()]: the action of a clip is created on
    first use and reused afterwards; [play] schedules it. *)
Definition clipAction_play (m : AnimationMixer) (c : AnimationClip) : AnimationMixer :=
  if existsb (same_clip c) (mixer_actions m) then
    {| mixer_root := mixer_root m;
       mixer_actions :=
         List.map (fun a => if same_clip c a
                            then mkAction (action_clip a) true else a)
                  (mixer_actions m);
       mixer_time := mixer_time m |}
  else
    {| mixer_root := mixer_root m;
       mixer_actions := mixer_actions m ++ [mkAction c true];
       mixer_time := mixer_time m |}.

(** [mixer.update(delta)] with the default time scale: the mixer's clock
    advances by [delta].  (The pose it writes to the model is not part of
    this embedding.) *)
Definition AnimationMixer_update (delta : float) (m : AnimationMixer) : AnimationMixer :=
  {| mixer_root := mixer_root m; mixer_actions := mixer_actions m;
     mixer_time := (mixer_time m + delta)%float |}.

(** ** Camera ([THREE.PerspectiveCamera]) *)

(** [projection] records the parameters the projection matrix was last
    computed from. *)
Record Camera := mkCamera {
  fov : float;
  aspect : float;
  near : float;
  far : float;
  projection : float * float * float * float
}.

Definition updateProjectionMatrix (c : Camera) : Camera :=
  {| fov := fov c; aspect := aspect c; near := near c; far := far c;
     projection := (fov c, aspect c, near c, far c) |}.

(** [new THREE.PerspectiveCamera(fov, aspect, near, far)]; the constructor
    computes the projection matrix. *)
Definition PerspectiveCamera_new (f a n r : float) : Camera :=
  updateProjectionMatrix
    {| fov := f; aspect := a; near := n; far := r; projection := (f, a, n, r) |}.

Definition set_aspect (a : float) (c : Camera) : Camera :=
  {| fov := fov c; aspect := a; near := near c; far := far c;
     projection := projection c |}.

Definition set_near (v : float) (c : Camera) : Camera :=
  {| fov := fov c; aspect := aspect c; near := v; far := far c;
     projection := projection c |}.

Definition set_far (v : float) (c : Camera) : Camera :=
  {| fov := fov c; aspect := aspect c; near := near c; far := v;
     projection := projection c |}.

(** ** Renderer ([THREE.WebGLRenderer]) *)

Inductive ToneMapping :=
  | NoToneMapping
  | LinearToneMapping
  | ReinhardToneMapping
  | CineonToneMapping
  | ACESFilmicToneMapping
  | CustomToneMapping.

Inductive TextureEncoding := LinearEncoding | sRGBEncoding.

Inductive ShadowMapType :=
  | BasicShadowMap
  | PCFShadowMap
  | PCFSoftShadowMap
  | VSMShadowMap.

(** [r_width], [r_height]: the output size last given to [setSize]. *)
Record WebGLRenderer := mkRenderer {
  antialias : bool;
  r_width : float;
  r_height : float;
  pixelRatio : float;
  outputEncoding : TextureEncoding;
  physicallyCorrectLights : bool;
  toneMapping : ToneMapping;
  toneMappingExposure : float;
  shadowMap_enabled : bool;
  shadowMap_type : ShadowMapType
}.

Record Canvas := mkCanvas { canvas_width : float; canvas_height : float }.

(** [new THREE.WebGLRenderer({ canvas, antialias })] with the property
    defaults of the three.js constructor: no tone mapping, exposure 1,
    linear output encoding, shadow map disabled. *)
Definition WebGLRenderer_new (canvas : Canvas) (aa : bool) : WebGLRenderer :=
  {| antialias := aa;
     r_width := canvas_width canvas;
     r_height := canvas_height canvas;
     pixelRatio := 1;
     outputEncoding := LinearEncoding;
     physicallyCorrectLights := false;
     toneMapping := NoToneMapping;
     toneMappingExposure := 1;
     shadowMap_enabled := false;
     shadowMap_type := PCFShadowMap |}.

(** [renderer.getDrawingBufferSize()]: the output size scaled by the
    pixel ratio, floored. *)
Definition getDrawingBufferSize (r : WebGLRenderer) : float * float :=
  (Math.floor (r_width r * pixelRatio r), Math.floor (r_height r * pixelRatio r))%float.

Definition setSize (w h : float) (r : WebGLRenderer) : WebGLRenderer :=
  {| antialias := antialias r; r_width := w; r_height := h;
     pixelRatio := pixelRatio r; outputEncoding := outputEncoding r;
     physicallyCorrectLights := physicallyCorrectLights r;
     toneMapping := toneMapping r; toneMappingExposure := toneMappingExposure r;
     shadowMap_enabled := shadowMap_enabled r; shadowMap_type := shadowMap_type r |}.

Definition setPixelRatio (v : float) (r : WebGLRenderer) : WebGLRenderer :=
  {| antialias := antialias r; r_width := r_width r; r_height := r_height r;
     pixelRatio := v; outputEncoding := outputEncoding r;
     physicallyCorrectLights := physicallyCorrectLights r;
     toneMapping := toneMapping r; toneMappingExposure := toneMappingExposure r;
     shadowMap_enabled := shadowMap_enabled r; shadowMap_type := shadowMap_type r |}.

Definition set_outputEncoding (v : TextureEncoding) (r : WebGLRenderer) : WebGLRenderer :=
  {| antialias := antialias r; r_width := r_width r; r_height := r_height r;
     pixelRatio := pixelRatio r; outputEncoding := v;
     physicallyCorrectLights := physicallyCorrectLights r;
     toneMapping := toneMapping r; toneMappingExposure := toneMappingExposure r;
     shadowMap_enabled := shadowMap_enabled r; shadowMap_type := shadowMap_type r |}.

Definition set_physicallyCorrectLights (v : bool) (r : WebGLRenderer) : WebGLRenderer :=
  {| antialias := antialias r; r_width := r_width r; r_height := r_height r;
     pixelRatio := pixelRatio r; outputEncoding := outputEncoding r;
     physicallyCorrectLights := v;
     toneMapping := toneMapping r; toneMappingExposure := toneMappingExposure r;
     shadowMap_enabled := shadowMap_enabled r; shadowMap_type := shadowMap_type r |}.

Definition set_toneMapping (v : ToneMapping) (r : WebGLRenderer) : WebGLRenderer :=
  {| antialias := antialias r; r_width := r_width r; r_height := r_height r;
     pixelRatio := pixelRatio r; outputEncoding := outputEncoding r;
     physicallyCorrectLights := physicallyCorrectLights r;
     toneMapping := v; toneMappingExposure := toneMappingExposure r;
     shadowMap_enabled := shadowMap_enabled r; shadowMap_type := shadowMap_type r |}.

Definition set_toneMappingExposure (v : float) (r : WebGLRenderer) : WebGLRenderer :=
  {| antialias := antialias r; r_width := r_width r; r_height := r_height r;
     pixelRatio := pixelRatio r; outputEncoding := outputEncoding r;
     physicallyCorrectLights := physicallyCorrectLights r;
     toneMapping := toneMapping r; toneMappingExposure := v;
     shadowMap_enabled := shadowMap_enabled r; shadowMap_type := shadowMap_type r |}.

Definition set_shadowMap_enabled (v : bool) (r : WebGLRenderer) : WebGLRenderer :=
  {| antialias := antialias r; r_width := r_width r; r_height := r_height r;
     pixelRatio := pixelRatio r; outputEncoding := outputEncoding r;
     physicallyCorrectLights := physicallyCorrectLights r;
     toneMapping := toneMapping r; toneMappingExposure := toneMappingExposure r;
     shadowMap_enabled := v; shadowMap_type := shadowMap_type r |}.

Definition set_shadowMap_type (t : ShadowMapType) (r : WebGLRenderer) : WebGLRenderer :=
  {| antialias := antialias r; r_width := r_width r; r_height := r_height r;
     pixelRatio := pixelRatio r; outputEncoding := outputEncoding r;
     physicallyCorrectLights := physicallyCorrectLights r;
     toneMapping := toneMapping r; toneMappingExposure := toneMappingExposure r;
     shadowMap_enabled := shadowMap_enabled r; shadowMap_type := t |}.

(** ** Light ([THREE.DirectionalLight])

    The light's [Object3D] fields (position, [castShadow]) live in its
    scene node; the record holds what is specific to the light. *)

Record Light := mkLight {
  light_color : string;
  light_intensity : float;
  shadow_camera_far : float;
  shadow_mapSize : float * float
}.

(** ** Program state *)

Record Window := mkWindow {
  innerWidth : float;
  innerHeight : float;
  devicePixelRatio : float
}.

Record Sizes := mkSizes { width : float; height : float }.

Record DebugObject := mkDebug {
  dbg_toneMapping : ToneMapping;
  dbg_toneMappingExposure : float;
  dbg_envMapIntensity : float
}.

(** The module-level variables of the script.  [mixer] is [None] while
    the variable is [undefined]. *)
Record State := mkState {
  scene : Object3D;
  background : option Texture;
  environment : option Texture;
  materials : MaterialStore;
  mixer : option AnimationMixer;
  sizes : Sizes;
  camera : Camera;
  renderer : WebGLRenderer;
  directionalLight : Light;
  debugObject : DebugObject
}.

Definition set_graph (sc : Object3D) (h : MaterialStore) (st : State) : State :=
  {| scene := sc; background := background st; environment := environment st;
     materials := h; mixer := mixer st; sizes := sizes st; camera := camera st;
     renderer := renderer st; directionalLight := directionalLight st;
     debugObject := debugObject st |}.

Definition set_mixer (m : option AnimationMixer) (st : State) : State :=
  {| scene := scene st; background := background st; environment := environment st;
     materials := materials st; mixer := m; sizes := sizes st; camera := camera st;
     renderer := renderer st; directionalLight := directionalLight st;
     debugObject := debugObject st |}.

Definition set_sizes (s : Sizes) (st : State) : State :=
  {| scene := scene st; background := background st; environment := environment st;
     materials := materials st; mixer := mixer st; sizes := s; camera := camera st;
     renderer := renderer st; directionalLight := directionalLight st;
     debugObject := debugObject st |}.

Definition set_camera (c : Camera) (st : State) : State :=
  {| scene := scene st; background := background st; environment := environment st;
     materials := materials st; mixer := mixer st; sizes := sizes st; camera := c;
     renderer := renderer st; directionalLight := directionalLight st;
     debugObject := debugObject st |}.

Definition set_renderer (r : WebGLRenderer) (st : State) : State :=
  {| scene := scene st; background := background st; environment := environment st;
     materials := materials st; mixer := mixer st; sizes := sizes st; camera := camera st;
     renderer := r; directionalLight := directionalLight st;
     debugObject := debugObject st |}.

Definition set_directionalLight (l : Light) (st : State) : State :=
  {| scene := scene st; background := background st; environment := environment st;
     materials := materials st; mixer := mixer st; sizes := sizes st; camera := camera st;
     renderer := renderer st; directionalLight := l;
     debugObject := debugObject st |}.

Definition set_debugObject (d : DebugObject) (st : State) : State :=
  {| scene := scene st; background := background st; environment := environment st;
     materials := materials st; mixer := mixer st; sizes := sizes st; camera := camera st;
     renderer := renderer st; directionalLight := directionalLight st;
     debugObject := d |}.

(** Calls a handler issues, in order.  They are what an observer of the
    program sees besides the state. *)
Inductive Call :=
  | Call_updateAllMaterials
  | Call_updateProjectionMatrix
  | Call_mixer_update (delta : float)
  | Call_controls_update
  | Call_renderer_render
  | Call_requestAnimationFrame.

#[global] Instance Call_inhabited : Inhabited Call := populate Call_controls_update.

Definition is_material_pass (c : Call) : bool :=
  match c with Call_updateAllMaterials => true | _ => false end.

Definition is_render (c : Call) : bool :=
  match c with Call_renderer_render => true | _ => false end.

(** Number of Material Updater passes in a list of calls. *)
Definition material_passes (cs : list Call) : nat :=
  length (List.filter is_material_pass cs).

(** Completion of a piece of script: a value, or a thrown error. *)
Inductive JSError := TypeError (msg : string).

Inductive Completion (A : Type) :=
  | Normal (a : A)
  | Throw (e : JSError).
Arguments Normal {A} a.
Arguments Throw {A} e.

#[global] Instance Completion_bind : MBind Completion :=
  λ A B k c, match c with
             | Normal a => k a
             | Throw e => Throw e
             end.

(** ** [updateAllMaterials] as the script calls it

    The closure reads [scene], [environmentMap] and
    [debugObject.envMapIntensity] from the module scope. *)
Definition run_updateAllMaterials (st : State) : State * list Call :=
  let '(sc, h) := updateAllMaterials (dbg_envMapIntensity (debugObject st))
                    (scene st) (materials st) in
  (set_graph sc h st, [Call_updateAllMaterials]).

(** ** Model load (script lines 44-69) *)

Record GLTF := mkGLTF {
  gltf_scene : Object3D;
  gltf_materials : MaterialStore;
  animations : list AnimationClip
}.

Definition Object3D_set_position_y (v : float) (o : Object3D) : Object3D :=
  match o with
  | Object3D_node p cs => Object3D_node (set_position (set_y v (position p)) p) cs
  end.

Definition Object3D_set_scale (v : Vector3) (o : Object3D) : Object3D :=
  match o with
  | Object3D_node p cs => Object3D_node (set_scale v p) cs
  end.

(** [scene.add(fox)]; the material objects of the loaded model become
    reachable from the scene graph with it.  They are new objects, so
    their references take precedence in the union. *)
Definition scene_add (o : Object3D) (ms : MaterialStore) (st : State) : State :=
  set_graph (Object3D_add o (scene st)) (ms ∪ materials st) st.

(** The success callback given to [gltfLoader.load]. *)
Definition onLoad (gltf : GLTF) (st : State) : State * list Call :=
  let fox := gltf_scene gltf in
  let box := Box3_setFromObject fox in
  let height := (y (box_max box) - y (box_min box))%float in
  let fox := Object3D_set_position_y (- height / 2)%float fox in
  let fox := Object3D_set_scale (Vector3_set 0.5 0.5 0.5) fox in
  let st := scene_add fox (gltf_materials gltf) st in
  let '(st, calls) := run_updateAllMaterials st in
  let mixer := AnimationMixer_new fox in
  let mixer := fold_left clipAction_play (animations gltf) mixer in
  (set_mixer (Some mixer) st, calls).

Inductive LoadOutcome :=
  | LoadSucceeded (gltf : GLTF)
  | LoadFailed (reason : string).

(** [GLTFLoader.load(url, onLoad, onProgress, onError)] when the request
    settles: the success callback on success; on failure the error
    callback if one was given, otherwise the loader only reports to the
    console. *)
Definition GLTFLoader_settle {S : Type}
    (on_load : GLTF → S → S * list Call)
    (on_error : option (string → S → S * list Call))
    (o : LoadOutcome) (s : S) : S * list Call :=
  match o with
  | LoadSucceeded gltf => on_load gltf s
  | LoadFailed reason =>
      match on_error with
      | Some handler => handler reason s
      | None => (s, [])
      end
  end.

(** The script's call: a URL and a success callback, nothing else. *)
Definition model_settled (o : LoadOutcome) (st : State) : State * list Call :=
  GLTFLoader_settle onLoad None o st.

(** ** Resize handler (script lines 95-104) *)

Definition onResize (w : Window) (st : State) : State * list Call :=
  let sizes := {| width := innerWidth w; height := innerHeight w |} in
  let camera := set_aspect (width sizes / height sizes)%float (camera st) in
  let camera := updateProjectionMatrix camera in
  let renderer := setSize (width sizes) (height sizes) (renderer st) in
  let renderer := setPixelRatio (Math.min (devicePixelRatio w) 2) renderer in
  (set_renderer renderer (set_camera camera (set_sizes sizes st)),
   [Call_updateProjectionMatrix]).

(** A sequence of resize events, handled one after the other. *)
Definition run_resizes (ws : list Window) (st : State) : State :=
  fold_left (fun st w => fst (onResize w st)) ws st.

(** ** Debug panel (script lines 155-189)

    A lil-gui controller writes the new value into its bound property and
    then calls the [onChange] handler, if it has one, with it. *)

Definition directionalLight_id : nat := 2.

Definition set_light_intensity (v : float) (l : Light) : Light :=
  {| light_color := light_color l; light_intensity := v;
     shadow_camera_far := shadow_camera_far l;
     shadow_mapSize := shadow_mapSize l |}.

(** The four controls of the light folder; they have no handler. *)
Definition slide_light_intensity (value : float) (st : State) : State * list Call :=
  (set_directionalLight (set_light_intensity value (directionalLight st)) st, []).

Definition slide_light_position (set_axis : float → Vector3 → Vector3)
    (value : float) (st : State) : State * list Call :=
  (set_graph
     (Object3D_update directionalLight_id
        (fun p => set_position (set_axis value (position p)) p) (scene st))
     (materials st) st, []).

Definition slide_light_x := slide_light_position set_x.
Definition slide_light_y := slide_light_position set_y.
Definition slide_light_z := slide_light_position set_z.

Definition set_dbg_toneMapping (v : ToneMapping) (d : DebugObject) : DebugObject :=
  {| dbg_toneMapping := v; dbg_toneMappingExposure := dbg_toneMappingExposure d;
     dbg_envMapIntensity := dbg_envMapIntensity d |}.

Definition set_dbg_toneMappingExposure (v : float) (d : DebugObject) : DebugObject :=
  {| dbg_toneMapping := dbg_toneMapping d; dbg_toneMappingExposure := v;
     dbg_envMapIntensity := dbg_envMapIntensity d |}.

Definition set_dbg_envMapIntensity (v : float) (d : DebugObject) : DebugObject :=
  {| dbg_toneMapping := dbg_toneMapping d;
     dbg_toneMappingExposure := dbg_toneMappingExposure d;
     dbg_envMapIntensity := v |}.

(** The options object of the tone-mapping dropdown. *)
Definition toneMapping_options : list (string * ToneMapping) :=
  [ ("No Tone Mapping"%string, NoToneMapping);
    ("Linear Tone Mapping"%string, LinearToneMapping);
    ("Reinhard Tone Mapping"%string, ReinhardToneMapping);
    ("Cineon Tone Mapping"%string, CineonToneMapping);
    ("ACES Filmic Tone Mapping"%string, ACESFilmicToneMapping) ].

Definition onChange_toneMapping (value : ToneMapping) (st : State) : State * list Call :=
  let st := set_renderer (set_toneMapping value (renderer st)) st in
  run_updateAllMaterials st.

Definition onChange_toneMappingExposure (value : float) (st : State) : State * list Call :=
  let st := set_renderer (set_toneMappingExposure value (renderer st)) st in
  run_updateAllMaterials st.

Definition onChange_envMapIntensity (st : State) : State * list Call :=
  run_updateAllMaterials st.

Fixpoint option_value (label : string) (opts : list (string * ToneMapping)) : option ToneMapping :=
  match opts with
  | [] => None
  | (l, v) :: r => if String.eqb l label then Some v else option_value label r
  end.

(** The user picks the dropdown entry [label]. *)
Definition select_toneMapping (label : string) (st : State) : State * list Call :=
  match option_value label toneMapping_options with
  | Some value =>
      let st := set_debugObject (set_dbg_toneMapping value (debugObject st)) st in
      onChange_toneMapping value st
  | None => (st, [])
  end.

(** The user moves the exposure slider to [value]. *)
Definition slide_toneMappingExposure (value : float) (st : State) : State * list Call :=
  let st := set_debugObject (set_dbg_toneMappingExposure value (debugObject st)) st in
  onChange_toneMappingExposure value st.

(** The user moves the intensity slider to [value]. *)
Definition slide_envMapIntensity (value : float) (st : State) : State * list Call :=
  let st := set_debugObject (set_dbg_envMapIntensity value (debugObject st)) st in
  onChange_envMapIntensity st.

(** ** Frame loop (script lines 194-209) *)

(** A method call [mixer.update(delta)] on the variable [mixer]: a
    TypeError when the variable is [undefined]. *)
Definition call_mixer_update (m : option AnimationMixer) (delta : float)
    : Completion AnimationMixer :=
  match m with
  | Some mx => Normal (AnimationMixer_update delta mx)
  | None => Throw (TypeError "mixer is undefined")
  end.

(** [if (mixer)]: an object is truthy, [undefined] is not. *)
Definition truthy {A} (v : option A) : bool :=
  match v with Some _ => true | None => false end.

(** One run of [tick]; [delta] is what [clock.getDelta()] returns.  What
    [controls.update()] writes to the camera's position and rotation is
    inside OrbitControls and not part of this embedding; the call is
    recorded. *)
Definition tick (delta : float) (st : State) : Completion (State * list Call) :=
  r ← (if truthy (mixer st) then
         m ← call_mixer_update (mixer st) delta;
         Normal (set_mixer (Some m) st, [Call_mixer_update delta])
       else Normal (st, []));
  Normal (fst r, snd r ++ [Call_controls_update; Call_renderer_render;
                           Call_requestAnimationFrame]).

(** ** The script from top to bottom *)

Definition Object3D_new (id : nat) (t : ObjectType) : Object3DProps :=
  {| obj_id := id; obj_type := t; obj_name := EmptyString;
     position := mkVector3 0 0 0; scale := mkVector3 1 1 1;
     visible := true; castShadow := false; receiveShadow := false;
     material := NoMaterial; geometry := None;
     quaternion := Quaternion_new |}.

(** Lines 109-115: the camera and its scene node. *)
#[warnings="-inexact-float"]
Definition startup_camera (sz : Sizes) : Camera :=
  let camera := PerspectiveCamera_new 75 (width sz / height sz)%float 0.1 100 in
  let camera := set_near 0.1 camera in
  set_far 100 camera.

Definition startup_camera_node : Object3D :=
  Object3D_node (set_position (Vector3_set 4 1 (-4)) (Object3D_new 1 PerspectiveCamera)) [].

(** Lines 126-137: the renderer. *)
Definition startup_renderer (w : Window) (canvas : Canvas) (sz : Sizes) : WebGLRenderer :=
  let renderer := WebGLRenderer_new canvas true in
  let renderer := setSize (width sz) (height sz) renderer in
  let renderer := setPixelRatio (Math.min (devicePixelRatio w) 2) renderer in
  let renderer := set_outputEncoding sRGBEncoding renderer in
  let renderer := set_physicallyCorrectLights true renderer in
  let renderer := set_shadowMap_enabled true renderer in
  set_shadowMap_type PCFSoftShadowMap renderer.

(** Lines 142-153: the light and its scene node. *)
Definition startup_light : Light :=
  {| light_color := "#ffffff"%string; light_intensity := 3;
     shadow_camera_far := 15; shadow_mapSize := (1024, 1024)%float |}.

Definition startup_light_node : Object3D :=
  Object3D_node
    (set_castShadow true
       (set_position (Vector3_set 0.25 3 (-2.25))
          (Object3D_new directionalLight_id DirectionalLight)))
    [].

(** Lines 164-166. *)
Definition startup_debugObject : DebugObject :=
  {| dbg_toneMapping := ACESFilmicToneMapping;
     dbg_toneMappingExposure := 3;
     dbg_envMapIntensity := 2.5 |}.

(** The state once every statement before [tick()] has run. *)
Definition init (w : Window) (canvas : Canvas) : State :=
  let scene := Object3D_node (Object3D_new 0 Scene) [] in
  let sizes := {| width := innerWidth w; height := innerHeight w |} in
  let scene := Object3D_add startup_camera_node scene in
  let scene := Object3D_add startup_light_node scene in
  {| scene := scene;
     background := Some environmentMap;
     environment := Some environmentMap;
     materials := ∅;
     mixer := None;
     sizes := sizes;
     camera := startup_camera sizes;
     renderer := startup_renderer w canvas sizes;
     directionalLight := startup_light;
     debugObject := startup_debugObject |}.

(** The whole script: the set-up, then the first [tick()] of line 209.
    The model request is still pending when the script returns. *)
Definition startup (w : Window) (canvas : Canvas) (delta : float)
    : Completion (State * list Call) :=
  tick delta (init w canvas).

(** ** Vocabulary of the statements *)

(** Every node of the graph, in traversal order. *)
Fixpoint nodes (o : Object3D) : list Object3DProps :=
  match o with
  | Object3D_node p cs => p :: List.flat_map nodes cs
  end.

Definition slot_is (k : nat) (slot : MaterialSlot) : bool :=
  match slot with
  | SingleMaterial r => Nat.eqb r k
  | _ => false
  end.

(** Material [k] is the material of some standard-material mesh of the
    graph. *)
Definition used_by_standard_mesh (h : MaterialStore) (o : Object3D) (k : nat) : bool :=
  existsb (fun p => is_standard_mesh h p && slot_is k (material p)) (nodes o).

(** The object most recently added to the scene root. *)
Definition last_added (st : State) : option Object3D :=
  last (children_of (scene st)).

(** World vertical coordinate of the lowest point of an object attached
    to the scene root, whose world matrix is the identity. *)
Definition lowest_point_y (o : Object3D) : float :=
  y (box_min (Box3_expandByObject (Some Matrix4_new) o Box3_new)).

(** The object's local origin is at the vertical centre of its bounding
    box of height [H]. *)
Definition origin_at_vertical_centre (o : Object3D) : Prop :=
  let box := Box3_setFromObject o in
  let H := (y (box_max box) - y (box_min box))%float in
  y (box_min box) = (- (H / 2))%float ∧ y (box_max box) = (H / 2)%float.



(** ** Sample data *)

Definition sample_material (t : MaterialType) : Material :=
  {| mat_type := t; mat_name := "fox_material"%string; envMap := None;
     envMapIntensity := 1; roughness := 0.5; metalness := 0; map := None |}.

Definition unit_cube : Box3 := mkBox3 (mkVector3 (-1) (-1) (-1)) (mkVector3 1 1 1).

(** A model whose local origin is at its vertical centre: one skinned
    mesh spanning [-1, 1] on every axis under an untransformed root, with
    a standard material. *)
Definition centred_scene : Object3D :=
  Object3D_node (Object3D_new 10 Group)
    [ Object3D_node
        {| obj_id := 11; obj_type := SkinnedMesh; obj_name := "fox"%string;
           position := mkVector3 0 0 0; scale := mkVector3 1 1 1;
           visible := true; castShadow := false; receiveShadow := false;
           material := SingleMaterial 0; geometry := Some unit_cube;
           quaternion := Quaternion_new |} [] ].

Definition sample_clip : AnimationClip :=
  {| clip_uuid := 0; clip_name := "Survey"%string; clip_duration := 3.5 |}.

Definition animated_model : GLTF :=
  {| gltf_scene := centred_scene;
     gltf_materials := {[ 0 := sample_material MeshStandardMaterial ]};
     animations := [sample_clip] |}.


Definition sample_window : Window :=
  {| innerWidth := 800; innerHeight := 600; devicePixelRatio := 3 |}.

Definition sample_canvas : Canvas := {| canvas_width := 300; canvas_height := 150 |}.

Definition low_dpi_window : Window :=
  {| innerWidth := 1024; innerHeight := 768; devicePixelRatio := 1.5 |}.

(** A model whose local origin is at its feet: one mesh spanning [0, 2]
    vertically under an untransformed root. *)
Definition feet_origin_model : GLTF :=
  {| gltf_scene :=
       Object3D_node (Object3D_new 30 Group)
         [ Object3D_node
             {| obj_id := 31; obj_type := SkinnedMesh; obj_name := "fox"%string;
                position := mkVector3 0 0 0; scale := mkVector3 1 1 1;
                visible := true; castShadow := false; receiveShadow := false;
                material := SingleMaterial 0;
                geometry := Some (mkBox3 (mkVector3 (-1) 0 (-1)) (mkVector3 1 2 1));
                quaternion := Quaternion_new |} [] ];
     gltf_materials := {[ 0 := sample_material MeshStandardMaterial ]};
     animations := [] |}.

(** World vertical coordinate of the highest point of an object attached
    to the scene root. *)
Definition highest_point_y (o : Object3D) : float :=
  y (box_max (Box3_expandByObject (Some Matrix4_new) o Box3_new)).
(** ** Events and sessions

    The browser delivers events to the handlers the script registered:
    the loader's callback (line 44), the resize listener (line 95), the
    panel controllers (lines 156-189) and the frame callback requested by
    [tick] (line 206). *)

Inductive Axis := AxisX | AxisY | AxisZ.

Definition set_axis (a : Axis) : float → Vector3 → Vector3 :=
  match a with
  | AxisX => set_x
  | AxisY => set_y
  | AxisZ => set_z
  end.

Inductive Event :=
  | ModelSettled (o : LoadOutcome)
  | WindowResized (w : Window)
  | LightIntensityMoved (value : float)
  | LightPositionMoved (a : Axis) (value : float)
  | ToneMappingSelected (label : string)
  | ExposureMoved (value : float)
  | EnvMapIntensityMoved (value : float)
  | AnimationFrame (delta : float).

Definition handle (e : Event) (st : State) : Completion (State * list Call) :=
  match e with
  | ModelSettled o => Normal (model_settled o st)
  | WindowResized w => Normal (onResize w st)
  | LightIntensityMoved value => Normal (slide_light_intensity value st)
  | LightPositionMoved a value => Normal (slide_light_position (set_axis a) value st)
  | ToneMappingSelected label => Normal (select_toneMapping label st)
  | ExposureMoved value => Normal (slide_toneMappingExposure value st)
  | EnvMapIntensityMoved value => Normal (slide_envMapIntensity value st)
  | AnimationFrame delta => tick delta st
  end.

(** The events of a list handled in order; the calls are collected.  A
    thrown error ends the run. *)
Fixpoint run (es : list Event) (st : State) : Completion (State * list Call) :=
  match es with
  | [] => Normal (st, [])
  | e :: rest =>
      match handle e st with
      | Normal r1 =>
          match run rest r1.1 with
          | Normal r2 => Normal (r2.1, r1.2 ++ r2.2)
          | Throw err => Throw err
          end
      | Throw err => Throw err
      end
  end.

(** The script, then the events that follow it. *)
Definition session (w : Window) (canvas : Canvas) (delta : float)
    (es : list Event) : Completion (State * list Call) :=
  match startup w canvas delta with
  | Normal r1 =>
      match run es r1.1 with
      | Normal r2 => Normal (r2.1, r1.2 ++ r2.2)
      | Throw err => Throw err
      end
  | Throw err => Throw err
  end.

Definition is_frame_request (c : Call) : bool :=
  match c with Call_requestAnimationFrame => true | _ => false end.

Definition is_mixer_update (c : Call) : bool :=
  match c with Call_mixer_update _ => true | _ => false end.

Definition is_frame (e : Event) : bool :=
  match e with AnimationFrame _ => true | _ => false end.

(** The value a dropdown event selects, if its label is an entry. *)
Definition selection_of (e : Event) : option ToneMapping :=
  match e with
  | ToneMappingSelected label => option_value label toneMapping_options
  | _ => None
  end.

Definition exposure_of (e : Event) : option float :=
  match e with
  | ExposureMoved value => Some value
  | _ => None
  end.

Definition loaded_by (e : Event) : option GLTF :=
  match e with
  | ModelSettled (LoadSucceeded gltf) => Some gltf
  | _ => None
  end.

(** The last value some event of the list yields, if any. *)
Definition last_of {A} (f : Event → option A) (es : list Event) : option A :=
  fold_left (fun acc e => match f e with Some v => Some v | None => acc end) es None.

(** The events after which the script runs the Material Updater. *)
Definition triggers_pass (e : Event) : bool :=
  match e with
  | ModelSettled (LoadSucceeded _) => true
  | ToneMappingSelected label =>
      match option_value label toneMapping_options with
      | Some _ => true
      | None => false
      end
  | ExposureMoved _ => true
  | EnvMapIntensityMoved _ => true
  | _ => false
  end.

(** Every standard-material mesh of the graph casts and receives shadows,
    and its material carries the environment map at the given
    intensity. *)
Definition standard_meshes_ready (intensity : float)
    (o : Object3D) (h : MaterialStore) : Prop :=
  Forall (fun p =>
            is_standard_mesh h p = true →
            castShadow p = true ∧ receiveShadow p = true
            ∧ ∃ r m, material p = SingleMaterial r ∧ h !! r = Some m
                     ∧ envMap m = Some environmentMap
                     ∧ envMapIntensity m = intensity)
         (nodes o).

(** No node of the object has a geometry. *)
Definition no_geometry (o : Object3D) : Prop :=
  Forall (fun p => geometry p = None) (nodes o).

(** A model of bones only. *)
Definition bare_model : GLTF :=
  {| gltf_scene :=
       Object3D_node (Object3D_new 20 Group)
         [ Object3D_node (Object3D_new 21 Bone) [ Object3D_node (Object3D_new 22 Bone) [] ] ];
     gltf_materials := ∅;
     animations := [] |}.

Definition second_clip : AnimationClip :=
  {| clip_uuid := 1; clip_name := "Walk"%string; clip_duration := 0.75 |}.

Definition two_clip_model : GLTF :=
  {| gltf_scene := centred_scene;
     gltf_materials := {[ 0 := sample_material MeshStandardMaterial ]};
     animations := [sample_clip; second_clip] |}.

(** * Properties of the traversal *)

Section TraverseFacts.
Context {S : Type}.
Variable callback : Object3DProps → S → Object3DProps * S.

Lemma traverse_node p cs s :
  traverse callback (Object3D_node p cs) s =
  let '(p', s1) := callback p s in
  let '(cs', s2) := traverse_children callback cs s1 in
  (Object3D_node p' cs', s2).
Proof.
  simpl. destruct (callback p s) as [p' s1].
  assert (E : ∀ l t,
    (fix traverse_children (l : list Object3D) (s : S) : list Object3D * S :=
       match l with
       | [] => ([], s)
       | c :: r =>
           let '(c', s') := traverse callback c s in
           let '(r', s'') := traverse_children r s' in
           (c' :: r', s'')
       end) l t = traverse_children callback l t).
  { induction l as [|c r IH]; intros t; simpl; [done|].
    destruct (traverse callback c t) as [c' s']. by rewrite IH. }
  by rewrite E.
Qed.

End TraverseFacts.

(** Induction over the scene graph with the hypothesis available for every
    child. *)
Lemma Object3D_tree_ind (P : Object3D → Prop) :
  (∀ p cs, Forall P cs → P (Object3D_node p cs)) → ∀ o, P o.
Proof.
  intros H. fix IH 1. intros [p cs]. apply H.
  induction cs as [|c r IHr]; constructor; [apply IH | exact IHr].
Qed.



Section UpdaterFacts.
Variable intensity : float.

Lemma same_classes_sym h1 h2 : same_classes h1 h2 → same_classes h2 h1.
Proof. intros H r. by rewrite H. Qed.

Lemma same_classes_trans h1 h2 h3 :
  same_classes h1 h2 → same_classes h2 h3 → same_classes h1 h3.
Proof. intros H12 H23 r. by rewrite H12, H23. Qed.

Lemma apply_environment_type m :
  mat_type (apply_environment intensity m) = mat_type m.
Proof. reflexivity. Qed.

Lemma apply_environment_idem m :
  apply_environment intensity (apply_environment intensity m)
  = apply_environment intensity m.
Proof. reflexivity. Qed.

Lemma material_write_classes slot h :
  same_classes (material_write (apply_environment intensity) slot h) h.
Proof.
  intros r. destruct slot as [|k|ks]; simpl; try done.
  rewrite lookup_alter. case_decide as E; [subst k|done].
  by destruct (h !! r).
Qed.

Lemma write_all_classes slots h :
  same_classes (write_all (apply_environment intensity) slots h) h.
Proof.
  revert h. induction slots as [|s l IH]; intros h; simpl; [done|].
  eapply same_classes_trans; [apply IH | apply material_write_classes].
Qed.

Lemma is_standard_mesh_ext h1 h2 p :
  same_classes h1 h2 → is_standard_mesh h1 p = is_standard_mesh h2 p.
Proof.
  intros H. unfold is_standard_mesh. f_equal.
  destruct (material p) as [|r|rs]; simpl; try done.
  specialize (H r). destruct (h1 !! r), (h2 !! r); simpl in *; congruence.
Qed.

Lemma mark_ext h1 h2 o : same_classes h1 h2 → mark h1 o = mark h2 o.
Proof.
  intros H. induction o as [p cs IH] using Object3D_tree_ind. simpl.
  rewrite (is_standard_mesh_ext h1 h2 p H). f_equal.
  induction IH as [|c r Hc _ IHr]; simpl; [done|]. by rewrite Hc, IHr.
Qed.

Lemma matched_slots_ext h1 h2 o :
  same_classes h1 h2 → matched_slots h1 o = matched_slots h2 o.
Proof.
  intros H. induction o as [p cs IH] using Object3D_tree_ind. simpl.
  rewrite (is_standard_mesh_ext h1 h2 p H). f_equal.
  induction IH as [|c r Hc _ IHr]; simpl; [done|]. by rewrite Hc, IHr.
Qed.

Lemma write_all_app f l1 l2 h :
  write_all f (l1 ++ l2) h = write_all f l2 (write_all f l1 h).
Proof. unfold write_all. apply fold_left_app. Qed.

(** One pass computes [mark] on the nodes and [write_all] on the store,
    both decided by the classes found in the store before the pass. *)
Lemma updateAllMaterials_closed_form o h :
  updateAllMaterials intensity o h
  = (mark h o, write_all (apply_environment intensity) (matched_slots h o) h).
Proof.
  unfold updateAllMaterials. revert h.
  induction o as [p cs IH] using Object3D_tree_ind. intros h.
  rewrite traverse_node. unfold updateMaterial_callback at 1.
  set (f := apply_environment intensity).
  assert (Hch : ∀ h1, same_classes h1 h →
    traverse_children (updateMaterial_callback intensity) cs h1
    = (List.map (mark h) cs,
       write_all f (List.flat_map (matched_slots h) cs) h1)).
  { clear p. induction IH as [|c r Hc _ IHr]; intros h1 H1; simpl; [done|].
    rewrite Hc.
    rewrite IHr by (eapply same_classes_trans;
                    [apply write_all_classes | exact H1]).
    rewrite write_all_app.
    by rewrite (mark_ext h1 h c H1), (matched_slots_ext h1 h c H1). }
  simpl. destruct (is_standard_mesh h p); simpl.
  - by rewrite Hch by apply material_write_classes.
  - by rewrite Hch.
Qed.

Lemma write_all_cons f s l h :
  write_all f (s :: l) h = write_all f l (material_write f s h).
Proof. reflexivity. Qed.

Lemma material_write_lookup f s h k :
  material_write f s h !! k
  = if decide (s = SingleMaterial k) then f <$> h !! k else h !! k.
Proof.
  destruct (decide (s = SingleMaterial k)) as [->|Hs]; simpl.
  - by rewrite lookup_alter_eq.
  - destruct s as [|r|rs]; simpl; try done.
    rewrite lookup_alter_ne; [done|congruence].
Qed.

(** What a pass leaves under reference [k]: the material is rewritten
    when some matching node points at it, and untouched otherwise. *)
Lemma write_all_lookup slots h k :
  write_all (apply_environment intensity) slots h !! k
  = if decide (SingleMaterial k ∈ slots)
    then apply_environment intensity <$> h !! k
    else h !! k.
Proof.
  revert h. induction slots as [|s l IH]; intros h.
  - rewrite decide_False by apply not_elem_of_nil. done.
  - rewrite write_all_cons, IH, material_write_lookup.
    destruct (decide (s = SingleMaterial k)) as [->|Hs].
    + rewrite (decide_True (P := _ ∈ _ :: _)) by apply list_elem_of_here.
      destruct (decide _); [|done]. by destruct (h !! k).
    + destruct (decide (SingleMaterial k ∈ l)) as [Hl|Hl].
      * by rewrite decide_True by (by apply list_elem_of_further).
      * rewrite decide_False; [done|].
        intros [E|E]%elem_of_cons; [by subst s|done].
Qed.

Lemma write_all_idem slots h :
  write_all (apply_environment intensity) slots
    (write_all (apply_environment intensity) slots h)
  = write_all (apply_environment intensity) slots h.
Proof.
  apply map_eq. intros k. rewrite !write_all_lookup.
  destruct (decide _); [|done]. by destruct (h !! k).
Qed.

Lemma is_standard_mesh_enable_shadows h p :
  is_standard_mesh h (enable_shadows p) = is_standard_mesh h p.
Proof. reflexivity. Qed.

Lemma mark_idem h o : mark h (mark h o) = mark h o.
Proof.
  induction o as [p cs IH] using Object3D_tree_ind. simpl. f_equal.
  - destruct (is_standard_mesh h p) eqn:E; [|by rewrite E].
    by rewrite is_standard_mesh_enable_shadows, E.
  - induction IH as [|c r Hc _ IHr]; simpl; [done|]. by rewrite Hc, IHr.
Qed.

Lemma matched_slots_mark h o : matched_slots h (mark h o) = matched_slots h o.
Proof.
  induction o as [p cs IH] using Object3D_tree_ind. simpl. f_equal.
  - destruct (is_standard_mesh h p) eqn:E; [|by rewrite E].
    by rewrite is_standard_mesh_enable_shadows, E.
  - induction IH as [|c r Hc _ IHr]; simpl; [done|]. by rewrite Hc, IHr.
Qed.

(** A second pass over the result of a pass changes nothing. *)
Lemma updateAllMaterials_twice o h :
  let r := updateAllMaterials intensity o h in
  updateAllMaterials intensity r.1 r.2 = r.
Proof.
  simpl. rewrite !updateAllMaterials_closed_form. simpl.
  set (h' := write_all _ _ h).
  assert (Hc : same_classes h' h) by apply write_all_classes.
  rewrite (mark_ext h' h _ Hc), (matched_slots_ext h' h _ Hc).
  rewrite mark_idem, matched_slots_mark. unfold h'.
  by rewrite write_all_idem.
Qed.

(** A graph without a standard-material mesh is left as it is. *)
Lemma updateAllMaterials_no_match o h :
  matched_slots h o = [] → updateAllMaterials intensity o h = (o, h).
Proof.
  intros H. rewrite updateAllMaterials_closed_form, H. simpl. f_equal.
  induction o as [p cs IH] using Object3D_tree_ind. simpl in *.
  apply app_eq_nil in H as [Hp Hcs].
  destruct (is_standard_mesh h p); [done|]. f_equal.
  induction IH as [|c r Hc _ IHr]; simpl in *; [done|].
  apply app_eq_nil in Hcs as [H1 H2]. by rewrite Hc, IHr.
Qed.

End UpdaterFacts.

(** * The closed form in terms of the statement vocabulary *)

Lemma mark_as_map h o :
  mark h o
  = Object3D_map (fun p => if is_standard_mesh h p
                           then set_receiveShadow true (set_castShadow true p)
                           else p) o.
Proof.
  induction o as [p cs IH] using Object3D_tree_ind. simpl. f_equal.
  induction IH as [|c r Hc _ IHr]; simpl; [done|]. by rewrite Hc, IHr.
Qed.

Lemma matched_slots_nodes h o :
  matched_slots h o
  = List.map material (List.filter (is_standard_mesh h) (nodes o)).
Proof.
  induction o as [p cs IH] using Object3D_tree_ind. simpl.
  assert (E : List.flat_map (matched_slots h) cs
              = List.map material
                  (List.filter (is_standard_mesh h) (List.flat_map nodes cs))).
  { induction IH as [|c r Hc _ IHr]; simpl; [done|].
    by rewrite List.filter_app, List.map_app, Hc, IHr. }
  rewrite E. by destruct (is_standard_mesh h p).
Qed.

Lemma slot_is_true k slot : slot_is k slot = true ↔ slot = SingleMaterial k.
Proof.
  destruct slot as [|r|rs]; simpl; try (split; [done|congruence]).
  rewrite Nat.eqb_eq. split; congruence.
Qed.

Lemma used_by_standard_mesh_spec h o k :
  used_by_standard_mesh h o k = true ↔ SingleMaterial k ∈ matched_slots h o.
Proof.
  unfold used_by_standard_mesh. rewrite matched_slots_nodes.
  rewrite List.existsb_exists, list_elem_of_In, List.in_map_iff.
  split.
  - intros (p & Hin & [Hm Hs%slot_is_true]%andb_prop).
    exists p. split; [done|]. apply List.filter_In. done.
  - intros (p & Hs & [Hin Hm]%List.filter_In).
    exists p. split; [done|]. rewrite Hm. simpl. by apply slot_is_true.
Qed.

(** The store after a pass, reference by reference. *)
Lemma updateAllMaterials_lookup intensity o h k :
  (updateAllMaterials intensity o h).2 !! k
  = if used_by_standard_mesh h o k
    then apply_environment intensity <$> h !! k
    else h !! k.
Proof.
  rewrite updateAllMaterials_closed_form. simpl. rewrite write_all_lookup.
  destruct (used_by_standard_mesh h o k) eqn:E.
  - apply used_by_standard_mesh_spec in E. by rewrite decide_True.
  - rewrite decide_False; [done|]. intros H%used_by_standard_mesh_spec. congruence.
Qed.

(** * The mixer built by the load callback *)

Lemma clipAction_play_root m c : mixer_root (clipAction_play m c) = mixer_root m.
Proof. unfold clipAction_play. by destruct (existsb _ _). Qed.

Lemma clipAction_play_time m c : mixer_time (clipAction_play m c) = mixer_time m.
Proof. unfold clipAction_play. by destruct (existsb _ _). Qed.

Lemma play_all_root cs m :
  mixer_root (fold_left clipAction_play cs m) = mixer_root m.
Proof.
  revert m. induction cs as [|c r IH]; intros m; simpl; [done|].
  by rewrite IH, clipAction_play_root.
Qed.

Lemma play_all_time cs m :
  mixer_time (fold_left clipAction_play cs m) = mixer_time m.
Proof.
  revert m. induction cs as [|c r IH]; intros m; simpl; [done|].
  by rewrite IH, clipAction_play_time.
Qed.








(** * The load callback, unfolded *)

Lemma last_snoc_Some {A} (l : list A) (a : A) : last (l ++ [a]) = Some a.
Proof. apply last_snoc. Qed.

(** The state the callback leaves: the placed model is the last child of
    the scene root, after one Material Updater pass over the new graph. *)
Lemma onLoad_unfold gltf st :
  let box := Box3_setFromObject (gltf_scene gltf) in
  let H := (y (box_max box) - y (box_min box))%float in
  let fox := Object3D_set_scale (Vector3_set 0.5 0.5 0.5)
               (Object3D_set_position_y (- H / 2)%float (gltf_scene gltf)) in
  let h := gltf_materials gltf ∪ materials st in
  last_added (onLoad gltf st).1 = Some (mark h fox)
  ∧ mixer (onLoad gltf st).1
    = Some (fold_left clipAction_play (animations gltf) (AnimationMixer_new fox))
  ∧ (onLoad gltf st).2 = [Call_updateAllMaterials].
Proof.
  simpl. unfold onLoad, run_updateAllMaterials, scene_add. simpl.
  rewrite updateAllMaterials_closed_form. simpl.
  split; [|done]. unfold last_added. simpl.
  destruct (scene st) as [p cs]. simpl.
  rewrite List.map_app. simpl. apply last_snoc_Some.
Qed.

(** * Float comparisons and [Math.min] *)

Lemma SFcompare_antisym a b :
  SFcompare a b = Some Lt → SFcompare b a = Some Gt.
Proof.
  destruct a as [sa|sa| |sa ma ea], b as [sb|sb| |sb mb eb]; simpl;
    try discriminate;
    try (destruct sa; discriminate || reflexivity);
    try (destruct sb; discriminate || reflexivity);
    try (destruct sa, sb; discriminate || reflexivity).
  intros H. injection H as H. f_equal.
  destruct sa, sb; try discriminate; try reflexivity.
  - rewrite (Z.compare_antisym ea eb).
    destruct (ea ?= eb)%Z eqn:E; simpl in *; try discriminate; try reflexivity.
    change (PosDef.Pos.compare_cont Eq ma mb) with (Pos.compare ma mb) in H.
    change (PosDef.Pos.compare_cont Eq mb ma) with (Pos.compare mb ma).
    rewrite (Pos.compare_antisym ma mb).
    destruct (Pos.compare ma mb); simpl in *; congruence.
  - rewrite (Z.compare_antisym ea eb).
    destruct (ea ?= eb)%Z eqn:E; simpl in *; try discriminate; try reflexivity.
    change (PosDef.Pos.compare_cont Eq ma mb) with (Pos.compare ma mb) in H.
    change (PosDef.Pos.compare_cont Eq mb ma) with (Pos.compare mb ma).
    rewrite (Pos.compare_antisym ma mb). by rewrite H.
Qed.

Lemma ltb_antisym a b : (a <? b)%float = true → (b <? a)%float = false.
Proof.
  rewrite !ltb_spec. unfold SFltb. intros H.
  destruct (SFcompare (Prim2SF a) (Prim2SF b)) as [[]|] eqn:E; try discriminate.
  by rewrite (SFcompare_antisym _ _ E).
Qed.

(** [Math.min(d, 2)] is never above 2, whatever [d] is. *)
Lemma Math_min_cap d : (2 <? Math.min d 2)%float = false.
Proof.
  unfold Math.min. destruct (is_nan d); [reflexivity|].
  change (false || is_nan 2) with false. cbv iota.
  destruct (d <? 2)%float eqn:E1; [by apply ltb_antisym|].
  destruct (2 <? d)%float eqn:E2; [reflexivity|].
  by destruct (get_sign d).
Qed.

Lemma SFcompare_refl a : a ≠ S754_nan → SFcompare a a = Some Eq.
Proof.
  destruct a as [sa|sa| |sa ma ea]; simpl; intros H; try done.
  - by destruct sa.
  - rewrite Z.compare_refl.
    change (PosDef.Pos.compare_cont Eq ma ma) with (Pos.compare ma ma).
    rewrite Pos.compare_refl. by destruct sa.
Qed.

(** A float that compares below or above another one is not NaN. *)
Lemma ltb_not_nan a b :
  (a <? b)%float = true → is_nan a = false ∧ is_nan b = false.
Proof.
  rewrite ltb_spec. unfold SFltb, is_nan. rewrite !FloatAxioms.eqb_spec. unfold SFeqb.
  destruct (SFcompare (Prim2SF a) (Prim2SF b)) as [[]|] eqn:E; try discriminate.
  intros _.
  assert (Ha : Prim2SF a ≠ S754_nan).
  { intros Hn. rewrite Hn in E. discriminate E. }
  assert (Hb : Prim2SF b ≠ S754_nan).
  { intros Hn. rewrite Hn in E. by destruct (Prim2SF a). }
  by rewrite (SFcompare_refl _ Ha), (SFcompare_refl _ Hb).
Qed.

(** Below 2, [Math.min(d, 2)] is [d] itself. *)
Lemma Math_min_below d : (d <? 2)%float = true → Math.min d 2 = d.
Proof.
  intros H. unfold Math.min.
  destruct (ltb_not_nan _ _ H) as [-> _].
  change (false || is_nan 2) with false. cbv iota. by rewrite H.
Qed.

(** Above 2, [Math.min(d, 2)] is 2. *)
Lemma Math_min_above d : (2 <? d)%float = true → Math.min d 2 = 2%float.
Proof.
  intros H. unfold Math.min.
  destruct (ltb_not_nan _ _ H) as [_ ->].
  change (false || is_nan 2) with false. cbv iota.
  by rewrite (ltb_antisym _ _ H), H.
Qed.

(** * The state at startup *)

(** C1.  Once the script has run top to bottom, and before any panel
    handler has, the renderer still has the tone mapping and exposure its
    constructor gave it (no tone mapping, exposure 1): lines 164-165 write
    the filmic operator and exposure 3 into [debugObject] only, and
    [renderer.toneMapping] is assigned nowhere but in the dropdown's
    [onChange] handler. *)
Theorem startup_renderer_tone_mapping w canvas delta :
  ∃ st calls,
    startup w canvas delta = Normal (st, calls)
    ∧ toneMapping (renderer st) = NoToneMapping
    ∧ toneMappingExposure (renderer st) = 1%float
    ∧ toneMapping (renderer st) ≠ ACESFilmicToneMapping
    ∧ dbg_toneMapping (debugObject st) = ACESFilmicToneMapping
    ∧ dbg_toneMappingExposure (debugObject st) = 3%float.
Proof.
  eexists _, _. split; [reflexivity|]. simpl. by repeat split.
Qed.

(** Every handler other than the dropdown's leaves the renderer's tone
    mapping as it found it. *)
Lemma toneMapping_kept_by_other_handlers st :
  (∀ o, toneMapping (renderer (model_settled o st).1) = toneMapping (renderer st))
  ∧ (∀ w, toneMapping (renderer (onResize w st).1) = toneMapping (renderer st))
  ∧ (∀ v, toneMapping (renderer (slide_toneMappingExposure v st).1)
          = toneMapping (renderer st))
  ∧ (∀ v, toneMapping (renderer (slide_envMapIntensity v st).1)
          = toneMapping (renderer st))
  ∧ (∀ v, toneMapping (renderer (slide_light_intensity v st).1)
          = toneMapping (renderer st))
  ∧ (∀ axis v, toneMapping (renderer (slide_light_position axis v st).1)
          = toneMapping (renderer st))
  ∧ (∀ delta st' calls, tick delta st = Normal (st', calls) →
       toneMapping (renderer st') = toneMapping (renderer st)).
Proof.
  repeat split.
  - intros [gltf|reason]; [|done]. simpl.
    unfold onLoad, run_updateAllMaterials.
    by destruct (updateAllMaterials _ _ _).
  - intros v. unfold slide_toneMappingExposure, onChange_toneMappingExposure,
      run_updateAllMaterials. by destruct (updateAllMaterials _ _ _).
  - intros v. unfold slide_envMapIntensity, onChange_envMapIntensity,
      run_updateAllMaterials. by destruct (updateAllMaterials _ _ _).
  - intros delta st' calls. unfold tick.
    destruct (mixer st); simpl; intros [= <- _]; done.
Qed.

(** * The load callback *)

(** What the callback does to the model's transform: the loaded model is
    the last child of the scene root; its [position.y] is [-H/2], where
    [H] is the height of the bounding box computed from the model as
    loaded (before it was moved or scaled); its other position components
    are as loaded and its scale is (0.5, 0.5, 0.5). *)
Lemma onLoad_places_model gltf st :
  let box := Box3_setFromObject (gltf_scene gltf) in
  let H := (y (box_max box) - y (box_min box))%float in
  ∃ fox,
    last_added (onLoad gltf st).1 = Some fox
    ∧ obj_id (props_of fox) = obj_id (props_of (gltf_scene gltf))
    ∧ y (position (props_of fox)) = (- H / 2)%float
    ∧ x (position (props_of fox)) = x (position (props_of (gltf_scene gltf)))
    ∧ z (position (props_of fox)) = z (position (props_of (gltf_scene gltf)))
    ∧ scale (props_of fox) = mkVector3 0.5 0.5 0.5.
Proof.
  simpl. destruct (onLoad_unfold gltf st) as (Hlast & _ & _).
  eexists. split; [exact Hlast|].
  destruct (gltf_scene gltf) as [p cs]. simpl.
  by destruct (is_standard_mesh _ _).
Qed.

(** C2.  The callback does not put the model's bottom at the origin.
    [animated_model] has its local origin at its vertical centre (box
    from -1 to 1, so H = 2); the callback puts it at [position.y = -1]
    with scale 0.5, and its lowest point is then at -1.5, not at 0. *)
Theorem centred_model_sinks_below_origin :
  origin_at_vertical_centre (gltf_scene animated_model)
  ∧ ∃ fox,
      last_added (onLoad animated_model (init sample_window sample_canvas)).1
      = Some fox
      ∧ y (position (props_of fox)) = (-1)%float
      ∧ lowest_point_y fox = (-1.5)%float
      ∧ lowest_point_y fox ≠ 0%float.
Proof.
  split.
  - split; vm_compute; reflexivity.
  - eexists. split; [vm_compute; reflexivity|].
    split; [vm_compute; reflexivity|].
    split; [vm_compute; reflexivity|].
    intros E. apply (f_equal (fun v => PrimFloat.eqb v 0)) in E.
    vm_compute in E. discriminate E.
Qed.

(** A model with its origin at its feet fares no better: with a box from
    0 to 2 it ends between -1 and 0, its top at the origin. *)
Lemma feet_origin_model_sinks_too :
  ∃ fox,
    last_added (onLoad feet_origin_model (init sample_window sample_canvas)).1
    = Some fox
    ∧ y (position (props_of fox)) = (-1)%float
    ∧ lowest_point_y fox = (-1)%float
    ∧ highest_point_y fox = 0%float.
Proof.
  eexists. split; [vm_compute; reflexivity|].
  repeat split; vm_compute; reflexivity.
Qed.



(** * The Material Updater *)

(** C4.  Running [updateAllMaterials] a second time, with the environment
    map and [debugObject.envMapIntensity] as they were, leaves the whole
    state (graph, materials and everything else) exactly as the first run
    left it. *)
Theorem updateAllMaterials_idempotent st :
  let once := (run_updateAllMaterials st).1 in
  (run_updateAllMaterials once).1 = once.
Proof.
  simpl. unfold run_updateAllMaterials.
  pose proof (updateAllMaterials_twice (dbg_envMapIntensity (debugObject st))
                (scene st) (materials st)) as H. simpl in H.
  destruct (updateAllMaterials _ (scene st) (materials st)) as [sc h].
  simpl in *. by rewrite H.
Qed.

(** C10.  A run of [updateAllMaterials] changes nothing in the state but
    the graph and the material store.  In the graph, the shape is kept
    and a node is changed only if it is a mesh with a standard material,
    and then only in [castShadow] and [receiveShadow].  In the store, a
    material is changed only if such a mesh points at it, and then only
    in [envMap] and [envMapIntensity]. *)
Theorem updateAllMaterials_frame st :
  let st' := (run_updateAllMaterials st).1 in
  let h := materials st in
  let intensity := dbg_envMapIntensity (debugObject st) in
  st' = set_graph (scene st') (materials st') st
  ∧ scene st'
    = Object3D_map
        (fun p => if is_standard_mesh h p
                  then set_receiveShadow true (set_castShadow true p)
                  else p)
        (scene st)
  ∧ ∀ k, materials st' !! k
         = if used_by_standard_mesh h (scene st) k
           then (fun m => set_envMapIntensity intensity
                            (set_envMap (Some environmentMap) m)) <$> h !! k
           else h !! k.
Proof.
  simpl. unfold run_updateAllMaterials.
  pose proof (updateAllMaterials_lookup (dbg_envMapIntensity (debugObject st))
                (scene st) (materials st)) as Hl.
  rewrite updateAllMaterials_closed_form in *. simpl in *.
  split; [done|]. split; [apply mark_as_map|]. exact Hl.
Qed.

(** C8.  At startup the scene root has exactly two children, the camera
    and the directional light, and no material exists; a run of
    [updateAllMaterials] there returns the state unchanged. *)
Theorem updateAllMaterials_at_startup w canvas delta :
  ∃ st calls,
    startup w canvas delta = Normal (st, calls)
    ∧ children_of (scene st) = [startup_camera_node; startup_light_node]
    ∧ materials st = ∅
    ∧ run_updateAllMaterials st = (st, [Call_updateAllMaterials]).
Proof.
  eexists _, _. split; [reflexivity|]. simpl. by repeat split.
Qed.

(** * The debug panel *)

(** C5.  The dropdown offers exactly the five operators.  Picking any
    entry leaves the renderer's tone mapping (and the panel's bound
    property) at the entry's value and runs [updateAllMaterials] exactly
    once; nothing else is called. *)
Theorem select_toneMapping_sets_renderer :
  List.map snd toneMapping_options
  = [NoToneMapping; LinearToneMapping; ReinhardToneMapping;
     CineonToneMapping; ACESFilmicToneMapping]
  ∧ Forall (fun '(label, value) => ∀ st,
              let r := select_toneMapping label st in
              toneMapping (renderer r.1) = value
              ∧ dbg_toneMapping (debugObject r.1) = value
              ∧ material_passes r.2 = 1
              ∧ r.2 = [Call_updateAllMaterials])
           toneMapping_options.
Proof.
  split; [reflexivity|].
  unfold toneMapping_options.
  repeat (apply List.Forall_cons;
    [ intros st; simpl;
      unfold select_toneMapping, onChange_toneMapping, run_updateAllMaterials;
      simpl; by destruct (updateAllMaterials _ _ _) | ]).
  apply List.Forall_nil.
Qed.

(** * Resizing *)

(** C6, as amended.  After the handler of the last resize event of any
    sequence has returned, [sizes] holds the new window size, the
    camera's aspect is the new width divided by the new height and its
    projection matrix has been recomputed from it, and the renderer's
    size is (width, height).  Its pixel ratio is
    [Math.min(devicePixelRatio, 2)]: the device pixel ratio when that is
    below 2, 2 when it is above 2, and never above 2.  Its drawing buffer
    is the size scaled by that pixel ratio and floored.  The handler
    itself draws no frame. *)
Theorem resize_invariant ws w st :
  let st' := run_resizes (ws ++ [w]) st in
  let ratio := pixelRatio (renderer st') in
  sizes st' = mkSizes (innerWidth w) (innerHeight w)
  ∧ aspect (camera st') = (innerWidth w / innerHeight w)%float
  ∧ projection (camera st')
    = (fov (camera st'), aspect (camera st'), near (camera st'), far (camera st'))
  ∧ (r_width (renderer st'), r_height (renderer st'))
    = (innerWidth w, innerHeight w)
  ∧ getDrawingBufferSize (renderer st')
    = (Math.floor (innerWidth w * ratio), Math.floor (innerHeight w * ratio))%float
  ∧ ratio = Math.min (devicePixelRatio w) 2
  ∧ (2 <? ratio)%float = false
  ∧ ((devicePixelRatio w <? 2)%float = true → ratio = devicePixelRatio w)
  ∧ ((2 <? devicePixelRatio w)%float = true → ratio = 2%float)
  ∧ (onResize w (run_resizes ws st)).1 = st'
  ∧ List.filter is_render (onResize w (run_resizes ws st)).2 = [].
Proof.
  cbv zeta. unfold run_resizes. rewrite fold_left_app. simpl.
  repeat split.
  - apply Math_min_cap.
  - apply Math_min_below.
  - apply Math_min_above.
Qed.

Lemma resize_invariant_witness :
  (devicePixelRatio low_dpi_window <? 2)%float = true
  ∧ (2 <? devicePixelRatio sample_window)%float = true
  ∧ pixelRatio
      (renderer (run_resizes [low_dpi_window] (init sample_window sample_canvas)))
    = devicePixelRatio low_dpi_window
  ∧ pixelRatio
      (renderer (run_resizes [sample_window] (init sample_window sample_canvas)))
    = 2%float.
Proof.
  split; [reflexivity|]. split; [reflexivity|]. split.
  - pose proof (resize_invariant [] low_dpi_window
                  (init sample_window sample_canvas)) as H.
    cbv zeta in H.
    destruct H as (_ & _ & _ & _ & _ & _ & _ & Hlow & _).
    apply Hlow. reflexivity.
  - pose proof (resize_invariant [] sample_window
                  (init sample_window sample_canvas)) as H.
    cbv zeta in H.
    destruct H as (_ & _ & _ & _ & _ & _ & _ & _ & Hhigh & _).
    apply Hhigh. reflexivity.
Defined.

(** C6, the claim as stated fails.  After a resize to 800 x 600 on a
    display with device pixel ratio 3, the renderer's size is 800 x 600,
    its pixel ratio is 2 and its drawing buffer is 1600 x 1200, not
    (width, height). *)
Lemma resize_drawing_buffer_is_scaled :
  let st' := run_resizes [sample_window] (init sample_window sample_canvas) in
  (innerWidth sample_window, innerHeight sample_window) = (800, 600)%float
  ∧ (r_width (renderer st'), r_height (renderer st')) = (800, 600)%float
  ∧ pixelRatio (renderer st') = 2%float
  ∧ getDrawingBufferSize (renderer st') = (1600, 1200)%float
  ∧ getDrawingBufferSize (renderer st')
    ≠ (innerWidth sample_window, innerHeight sample_window).
Proof.
  cbv zeta. repeat split; try (vm_compute; reflexivity).
  intros E. apply (f_equal fst) in E.
  apply (f_equal (fun v => PrimFloat.eqb v 800)) in E.
  vm_compute in E. discriminate E.
Qed.

(** * The frame loop *)

(** C7.  While [mixer] is undefined, [tick] completes normally: it does
    not touch the state, does not advance any mixer, updates the controls,
    renders one frame and requests the next.  The script's own first call
    of [tick] is such a run, so the script completes with one frame
    rendered. *)
Theorem tick_without_mixer delta st :
  mixer st = None →
  tick delta st
  = Normal (st, [Call_controls_update; Call_renderer_render;
                 Call_requestAnimationFrame])
  ∧ ∀ w canvas,
      startup w canvas delta
      = Normal (init w canvas, [Call_controls_update; Call_renderer_render;
                                Call_requestAnimationFrame]).
Proof.
  intros H. split; [|reflexivity].
  unfold tick. rewrite H. reflexivity.
Qed.

Lemma tick_without_mixer_witness :
  mixer (init sample_window sample_canvas) = None
  ∧ (tick 0.015625 (init sample_window sample_canvas)
     = Normal (init sample_window sample_canvas,
               [Call_controls_update; Call_renderer_render;
                Call_requestAnimationFrame])
     ∧ ∀ w canvas,
         startup w canvas 0.015625
         = Normal (init w canvas, [Call_controls_update; Call_renderer_render;
                                   Call_requestAnimationFrame])).
Proof.
  split; [reflexivity|].
  exact (tick_without_mixer 0.015625 (init sample_window sample_canvas) eq_refl).
Defined.

(** * A failed model load *)

(** C9.  The script gives the loader a success callback and no error
    callback.  When the load fails, no handler of the script runs: the
    state (scene graph, mixer and all the rest) is returned as it was and
    no call is issued. *)
Theorem failed_load_changes_nothing reason st :
  model_settled (LoadFailed reason) st = (st, [])
  ∧ scene (model_settled (LoadFailed reason) st).1 = scene st
  ∧ mixer (model_settled (LoadFailed reason) st).1 = mixer st
  ∧ ∀ w canvas, mixer (model_settled (LoadFailed reason) (init w canvas)).1 = None.
Proof. by repeat split. Qed.

(** * Further properties of the Material Updater *)

Lemma nodes_map f o : nodes (Object3D_map f o) = List.map f (nodes o).
Proof.
  induction o as [p cs IH] using Object3D_tree_ind. simpl. f_equal.
  induction IH as [|c r Hc _ IHr]; simpl; [done|].
  by rewrite List.map_app, Hc, IHr.
Qed.

Lemma is_standard_mesh_inv h p :
  is_standard_mesh h p = true →
  ∃ r m, material p = SingleMaterial r ∧ h !! r = Some m
         ∧ instanceof_MeshStandardMaterial (mat_type m) = true.
Proof.
  unfold is_standard_mesh. intros [_ H]%andb_prop.
  destruct (material p) as [|r|rs]; simpl in H; try done.
  destruct (h !! r) as [m|] eqn:E; [|done]. by exists r, m.
Qed.

Lemma run_updateAllMaterials_eq st :
  run_updateAllMaterials st
  = (set_graph
       (updateAllMaterials (dbg_envMapIntensity (debugObject st))
          (scene st) (materials st)).1
       (updateAllMaterials (dbg_envMapIntensity (debugObject st))
          (scene st) (materials st)).2 st,
     [Call_updateAllMaterials]).
Proof.
  unfold run_updateAllMaterials. by destruct (updateAllMaterials _ _ _).
Qed.

Lemma updateAllMaterials_ready intensity o h :
  standard_meshes_ready intensity
    (updateAllMaterials intensity o h).1 (updateAllMaterials intensity o h).2.
Proof.
  rewrite updateAllMaterials_closed_form. simpl.
  set (h' := write_all _ _ h).
  assert (Hc : same_classes h' h) by apply write_all_classes.
  unfold standard_meshes_ready. rewrite mark_as_map, nodes_map.
  apply List.Forall_map, Forall_forall. intros p Hin Hstd.
  rewrite (is_standard_mesh_ext h' h _ Hc) in Hstd.
  destruct (is_standard_mesh h p) eqn:Ep.
  - split; [done|]. split; [done|].
    destruct (is_standard_mesh_inv h p Ep) as (r & m & Hr & Hm & _).
    exists r, (apply_environment intensity m). split; [done|].
    split; [|done]. unfold h'. rewrite write_all_lookup, decide_True.
    + by rewrite Hm.
    + rewrite matched_slots_nodes, <- Hr. apply list_elem_of_In, List.in_map.
      apply List.filter_In. split; [by apply list_elem_of_In|done].
  - congruence.
Qed.

(** X1.  After a run of [updateAllMaterials], every mesh with a standard
    material casts and receives shadows, and its material has the
    environment map and the panel's current intensity. *)
Theorem updateAllMaterials_readies_meshes st :
  let st' := (run_updateAllMaterials st).1 in
  standard_meshes_ready (dbg_envMapIntensity (debugObject st))
    (scene st') (materials st').
Proof.
  simpl. rewrite run_updateAllMaterials_eq. simpl.
  apply updateAllMaterials_ready.
Qed.

Lemma write_all_overwrite i j slots h :
  write_all (apply_environment j) slots (write_all (apply_environment i) slots h)
  = write_all (apply_environment j) slots h.
Proof.
  apply map_eq. intros k. rewrite !write_all_lookup.
  destruct (decide _); [|done]. by destruct (h !! k).
Qed.

Lemma updateAllMaterials_overwrite i j o h :
  updateAllMaterials j (updateAllMaterials i o h).1 (updateAllMaterials i o h).2
  = updateAllMaterials j o h.
Proof.
  rewrite !updateAllMaterials_closed_form. simpl.
  set (h' := write_all (apply_environment i) _ h).
  assert (Hc : same_classes h' h) by apply write_all_classes.
  rewrite (mark_ext h' h _ Hc), (matched_slots_ext h' h _ Hc).
  rewrite mark_idem, matched_slots_mark. unfold h'.
  by rewrite write_all_overwrite.
Qed.

(** X2.  Moving the intensity slider twice leaves exactly what the second
    move alone would leave: the later intensity replaces the earlier one
    on every material, nothing accumulates. *)
Theorem last_envMapIntensity_wins v1 v2 st :
  slide_envMapIntensity v2 (slide_envMapIntensity v1 st).1
  = slide_envMapIntensity v2 st.
Proof.
  unfold slide_envMapIntensity, onChange_envMapIntensity.
  rewrite !run_updateAllMaterials_eq. simpl.
  by rewrite updateAllMaterials_overwrite.
Qed.

(** * Sessions *)

Lemma tick_cases delta st :
  tick delta st
  = Normal (match mixer st with
            | Some m => set_mixer (Some (AnimationMixer_update delta m)) st
            | None => st
            end,
            match mixer st with
            | Some _ => [Call_mixer_update delta]
            | None => []
            end ++ [Call_controls_update; Call_renderer_render;
                    Call_requestAnimationFrame]).
Proof. unfold tick. by destruct (mixer st). Qed.

Lemma handle_normal e st : ∃ r, handle e st = Normal r.
Proof. destruct e; simpl; try by eexists. rewrite tick_cases. by eexists. Qed.

Lemma run_normal es st : ∃ r, run es st = Normal r.
Proof.
  revert st. induction es as [|e rest IH]; intros st; simpl; [by eexists|].
  destruct (handle_normal e st) as [r1 ->].
  destruct (IH r1.1) as [r2 ->]. by eexists.
Qed.

Lemma run_cons e rest st r :
  run (e :: rest) st = Normal r →
  ∃ r1 r2, handle e st = Normal r1 ∧ run rest r1.1 = Normal r2
           ∧ r = (r2.1, r1.2 ++ r2.2).
Proof.
  simpl. destruct (handle e st) as [r1|]; [|discriminate].
  destruct (run rest r1.1) as [r2|] eqn:E; [|discriminate].
  intros [= <-]. by exists r1, r2.
Qed.

(** A property kept by every handler is kept by every run. *)
Lemma run_invariant (P : State → Prop) :
  (∀ e st r, P st → handle e st = Normal r → P r.1) →
  ∀ es st r, P st → run es st = Normal r → P r.1.
Proof.
  intros Hstep es. induction es as [|e rest IH]; intros st r HP Hrun.
  - simpl in Hrun. by injection Hrun as <-.
  - apply run_cons in Hrun as (r1 & r2 & H1 & H2 & ->). simpl.
    eapply IH; [|exact H2]. eapply Hstep; [exact HP|exact H1].
Qed.

Lemma session_unfold w canvas delta es :
  session w canvas delta es
  = match run es (init w canvas) with
    | Normal r2 => Normal (r2.1, [Call_controls_update; Call_renderer_render;
                                  Call_requestAnimationFrame] ++ r2.2)
    | Throw err => Throw err
    end.
Proof. reflexivity. Qed.

(** The calls of one handler. *)
Lemma handle_calls e st r :
  handle e st = Normal r →
  r.2 = (if triggers_pass e then [Call_updateAllMaterials] else [])
        ++ match e with
           | WindowResized _ => [Call_updateProjectionMatrix]
           | AnimationFrame delta =>
               match mixer st with
               | Some _ => [Call_mixer_update delta]
               | None => []
               end ++ [Call_controls_update; Call_renderer_render;
                       Call_requestAnimationFrame]
           | _ => []
           end.
Proof.
  intros H.
  destruct e as [[gltf|reason]|w|v|a v|label|v|v|delta];
    cbn [handle triggers_pass] in *;
    try rewrite tick_cases in H; injection H as <-; try done.
  - destruct (onLoad_unfold gltf st) as (_ & _ & E). exact E.
  - unfold select_toneMapping, onChange_toneMapping.
    destruct (option_value label toneMapping_options); [|done].
    by rewrite run_updateAllMaterials_eq.
  - unfold slide_toneMappingExposure, onChange_toneMappingExposure.
    by rewrite run_updateAllMaterials_eq.
  - unfold slide_envMapIntensity, onChange_envMapIntensity.
    by rewrite run_updateAllMaterials_eq.
Qed.

Lemma run_count (p : Call → bool) (q : Event → bool) :
  (∀ e st r, handle e st = Normal r →
     length (List.filter p r.2) = if q e then 1 else 0) →
  ∀ es st r, run es st = Normal r →
    length (List.filter p r.2) = length (List.filter q es).
Proof.
  intros Hstep es. induction es as [|e rest IH]; intros st r Hrun.
  - simpl in Hrun. by injection Hrun as <-.
  - apply run_cons in Hrun as (r1 & r2 & H1 & H2 & ->). simpl.
    rewrite List.filter_app, length_app, (IH _ _ H2), (Hstep _ _ _ H1).
    by destruct (q e).
Qed.

(** X3.  A session never throws, whatever events arrive and in whatever
    order; it renders once at startup and once per animation frame, and
    each of these requests exactly one further frame. *)
Theorem session_renders_every_frame w canvas delta es :
  ∃ st calls,
    session w canvas delta es = Normal (st, calls)
    ∧ length (List.filter is_render calls) = S (length (List.filter is_frame es))
    ∧ length (List.filter is_frame_request calls)
      = S (length (List.filter is_frame es)).
Proof.
  rewrite session_unfold.
  destruct (run_normal es (init w canvas)) as [r Hr]. rewrite Hr.
  eexists _, _. split; [reflexivity|]. simpl. split; f_equal.
  - apply (run_count is_render is_frame) with (st := init w canvas); [|done].
    intros e st r' H. rewrite (handle_calls e st r' H), List.filter_app, length_app.
    destruct e as [[?|?]|?|?|? ?|l|?|?|?]; cbn [triggers_pass is_frame];
      try done.
    + by destruct (option_value l toneMapping_options).
    + by destruct (mixer st).
  - apply (run_count is_frame_request is_frame) with (st := init w canvas); [|done].
    intros e st r' H. rewrite (handle_calls e st r' H), List.filter_app, length_app.
    destruct e as [[?|?]|?|?|? ?|l|?|?|?]; cbn [triggers_pass is_frame];
      try done.
    + by destruct (option_value l toneMapping_options).
    + by destruct (mixer st).
Qed.

(** X4.  In a session the Material Updater runs once for a successful
    model load and once for each tone-mapping, exposure or intensity
    change, and at no other time: not at startup, not on a resize, a light
    control, a frame, a failed load or a dropdown label that is no
    entry. *)
Theorem session_material_passes w canvas delta es :
  ∃ st calls,
    session w canvas delta es = Normal (st, calls)
    ∧ material_passes calls = length (List.filter triggers_pass es).
Proof.
  rewrite session_unfold.
  destruct (run_normal es (init w canvas)) as [r Hr]. rewrite Hr.
  eexists _, _. split; [reflexivity|]. unfold material_passes. simpl.
  apply (run_count is_material_pass triggers_pass) with (st := init w canvas);
    [|done].
  intros e st r' H. rewrite (handle_calls e st r' H), List.filter_app, length_app.
  destruct e as [[?|?]|?|?|? ?|l|?|?|?]; cbn [triggers_pass]; try done.
  - by destruct (option_value l toneMapping_options).
  - by destruct (mixer st).
Qed.

(** * What every session keeps *)

Lemma onLoad_eq gltf st :
  let box := Box3_setFromObject (gltf_scene gltf) in
  let H := (y (box_max box) - y (box_min box))%float in
  let fox := Object3D_set_scale (Vector3_set 0.5 0.5 0.5)
               (Object3D_set_position_y (- H / 2)%float (gltf_scene gltf)) in
  let u := updateAllMaterials (dbg_envMapIntensity (debugObject st))
             (Object3D_add fox (scene st))
             (gltf_materials gltf ∪ materials st) in
  onLoad gltf st
  = (set_mixer
       (Some (fold_left clipAction_play (animations gltf) (AnimationMixer_new fox)))
       (set_graph u.1 u.2 st),
     [Call_updateAllMaterials]).
Proof.
  simpl. unfold onLoad, scene_add. by rewrite run_updateAllMaterials_eq.
Qed.

Ltac handler_cases e H :=
  destruct e as [[gltf|reason]|w|v|a v|label|v|v|delta];
  cbn [handle selection_of exposure_of loaded_by] in *;
  try rewrite tick_cases in H; injection H as <-;
  unfold model_settled, GLTFLoader_settle, select_toneMapping,
    onChange_toneMapping, slide_toneMappingExposure,
    onChange_toneMappingExposure, slide_envMapIntensity,
    onChange_envMapIntensity;
  try rewrite onLoad_eq;
  try destruct (option_value label toneMapping_options);
  rewrite ?run_updateAllMaterials_eq.

Lemma is_standard_mesh_same h p q :
  obj_type q = obj_type p → material q = material p →
  is_standard_mesh h q = is_standard_mesh h p.
Proof. unfold is_standard_mesh. by intros -> ->. Qed.

(** Moving a node does not disturb what the Material Updater set. *)
Lemma ready_update_position intensity i g o h :
  standard_meshes_ready intensity o h →
  standard_meshes_ready intensity
    (Object3D_update i (fun p => set_position (g p) p) o) h.
Proof.
  unfold standard_meshes_ready, Object3D_update. rewrite nodes_map.
  intros H. apply List.Forall_map. eapply Forall_impl; [exact H|].
  intros p Hp. simpl. destruct (Nat.eqb (obj_id p) i); [|done].
  by rewrite (is_standard_mesh_same h p (set_position (g p) p)).
Qed.

(** X5.  At every moment of a session, each standard-material mesh of the
    scene casts and receives shadows and its material has the environment
    map and the intensity the panel currently shows - whether the model
    arrived before or after the slider was moved. *)
Theorem session_keeps_meshes_ready w canvas delta es :
  ∃ st calls,
    session w canvas delta es = Normal (st, calls)
    ∧ standard_meshes_ready (dbg_envMapIntensity (debugObject st))
        (scene st) (materials st).
Proof.
  rewrite session_unfold.
  destruct (run_normal es (init w canvas)) as [r Hr]. rewrite Hr.
  eexists _, _. split; [reflexivity|]. simpl.
  apply (run_invariant
           (fun st => standard_meshes_ready (dbg_envMapIntensity (debugObject st))
                        (scene st) (materials st)))
    with (es := es) (st := init w canvas); [|by repeat constructor|done].
  clear. intros e st r HP H.
  handler_cases e H; simpl; try done; try apply updateAllMaterials_ready.
  - by apply ready_update_position.
  - by destruct (mixer st).
Qed.

(** X6.  At every moment of a session the camera's projection matrix is
    the one of its current parameters, its aspect is
    [sizes.width / sizes.height], and the renderer's size is [sizes];
    no handler leaves one of them behind. *)
Theorem session_keeps_view_consistent w canvas delta es :
  ∃ st calls,
    session w canvas delta es = Normal (st, calls)
    ∧ projection (camera st)
      = (fov (camera st), aspect (camera st), near (camera st), far (camera st))
    ∧ aspect (camera st) = (width (sizes st) / height (sizes st))%float
    ∧ r_width (renderer st) = width (sizes st)
    ∧ r_height (renderer st) = height (sizes st).
Proof.
  rewrite session_unfold.
  destruct (run_normal es (init w canvas)) as [r Hr]. rewrite Hr.
  eexists _, _. split; [reflexivity|]. simpl.
  apply (run_invariant
           (fun st =>
              projection (camera st)
              = (fov (camera st), aspect (camera st), near (camera st),
                 far (camera st))
              ∧ aspect (camera st) = (width (sizes st) / height (sizes st))%float
              ∧ r_width (renderer st) = width (sizes st)
              ∧ r_height (renderer st) = height (sizes st)))
    with (es := es) (st := init w canvas); [|by repeat split|done].
  clear. intros e st r HP H.
  handler_cases e H; simpl; try done.
  by destruct (mixer st).
Qed.

Lemma last_of_acc {A} (f : Event → option A) es acc :
  fold_left (fun acc e => match f e with Some v => Some v | None => acc end) es acc
  = match last_of f es with Some v => Some v | None => acc end.
Proof.
  unfold last_of. revert acc. induction es as [|e rest IH]; intros acc; simpl.
  - done.
  - rewrite IH, (IH (match f e with Some v => Some v | None => None end)).
    destruct (fold_left _ rest None); [done|]. by destruct (f e).
Qed.

Lemma last_of_cons {A} (f : Event → option A) e es :
  last_of f (e :: es)
  = match last_of f es with Some v => Some v | None => f e end.
Proof.
  unfold last_of at 1. simpl. rewrite last_of_acc.
  destruct (last_of f es); [done|]. by destruct (f e).
Qed.

(** A field written only by the events [f] picks holds, after a run, what
    the last such event wrote. *)
Lemma run_last_of {A} (f : Event → option A) (g : State → A) :
  (∀ e st r, handle e st = Normal r → g r.1 = default (g st) (f e)) →
  ∀ es st r, run es st = Normal r → g r.1 = default (g st) (last_of f es).
Proof.
  intros Hstep es. induction es as [|e rest IH]; intros st r Hrun.
  - simpl in Hrun. by injection Hrun as <-.
  - apply run_cons in Hrun as (r1 & r2 & H1 & H2 & ->). simpl.
    rewrite (IH _ _ H2), (Hstep _ _ _ H1), last_of_cons.
    by destruct (last_of f rest).
Qed.

(** X7.  In a session, the renderer's tone mapping is the entry last
    picked in the dropdown, and the constructor's [NoToneMapping] as long
    as none was picked, while the panel shows the filmic operator until
    then; likewise the renderer's exposure is the slider's last value, and
    1 (with the panel showing 3) as long as the slider was not moved.
    Renderer and panel agree from the first use of a control on. *)
Theorem session_tone_mapping_follows_panel w canvas delta es :
  ∃ st calls,
    session w canvas delta es = Normal (st, calls)
    ∧ toneMapping (renderer st) = default NoToneMapping (last_of selection_of es)
    ∧ dbg_toneMapping (debugObject st)
      = default ACESFilmicToneMapping (last_of selection_of es)
    ∧ toneMappingExposure (renderer st) = default 1%float (last_of exposure_of es)
    ∧ dbg_toneMappingExposure (debugObject st)
      = default 3%float (last_of exposure_of es).
Proof.
  rewrite session_unfold.
  destruct (run_normal es (init w canvas)) as [r Hr]. rewrite Hr.
  eexists _, _. split; [reflexivity|]. simpl.
  split; [|split; [|split]].
  - apply (run_last_of selection_of (fun st => toneMapping (renderer st)))
      with (st := init w canvas); [|done].
    clear. intros e st r H. handler_cases e H; simpl; try done.
    by destruct (mixer st).
  - apply (run_last_of selection_of (fun st => dbg_toneMapping (debugObject st)))
      with (st := init w canvas); [|done].
    clear. intros e st r H. handler_cases e H; simpl; try done.
    by destruct (mixer st).
  - apply (run_last_of exposure_of (fun st => toneMappingExposure (renderer st)))
      with (st := init w canvas); [|done].
    clear. intros e st r H. handler_cases e H; simpl; try done.
    by destruct (mixer st).
  - apply (run_last_of exposure_of
             (fun st => dbg_toneMappingExposure (debugObject st)))
      with (st := init w canvas); [|done].
    clear. intros e st r H. handler_cases e H; simpl; try done.
    by destruct (mixer st).
Qed.

(** X8.  In a session there is a mixer exactly from the first successful
    model load on, and it is always bound to the root of the model loaded
    last; frames, resizes, panel changes and failed loads neither create
    nor drop nor rebind it. *)
Theorem session_mixer_follows_load w canvas delta es :
  ∃ st calls,
    session w canvas delta es = Normal (st, calls)
    ∧ mixer_root <$> mixer st
      = (fun gltf => obj_id (props_of (gltf_scene gltf))) <$> last_of loaded_by es.
Proof.
  rewrite session_unfold.
  destruct (run_normal es (init w canvas)) as [r Hr]. rewrite Hr.
  eexists _, _. split; [reflexivity|]. simpl.
  assert (Hstep : ∀ e st r, handle e st = Normal r →
            mixer_root <$> mixer r.1
            = match loaded_by e with
              | Some gltf => Some (obj_id (props_of (gltf_scene gltf)))
              | None => mixer_root <$> mixer st
              end).
  { clear. intros e st r H. handler_cases e H; simpl; try done.
    - rewrite play_all_root. by destruct (gltf_scene gltf).
    - destruct (mixer st) eqn:E; simpl; by rewrite ?E. }
  assert (G : ∀ es st r, run es st = Normal r →
            mixer_root <$> mixer r.1
            = match last_of loaded_by es with
              | Some gltf => Some (obj_id (props_of (gltf_scene gltf)))
              | None => mixer_root <$> mixer st
              end).
  { clear es r Hr. intros es. induction es as [|e rest IH]; intros st r Hrun.
    - simpl in Hrun. by injection Hrun as <-.
    - apply run_cons in Hrun as (r1 & r2 & H1 & H2 & ->). simpl.
      rewrite (IH _ _ H2), (Hstep _ _ _ H1), last_of_cons.
      destruct (last_of loaded_by rest); [done|]. by destruct (loaded_by e). }
  rewrite (G _ _ _ Hr). by destruct (last_of loaded_by es).
Qed.

(** * The pixel ratio *)

(** X9.  At every moment of a session the renderer's pixel ratio is at
    most 2, whatever device pixel ratios the window reports (it is NaN
    only if the window reports NaN). *)
Theorem session_pixel_ratio_capped w canvas delta es :
  ∃ st calls,
    session w canvas delta es = Normal (st, calls)
    ∧ (2 <? pixelRatio (renderer st))%float = false.
Proof.
  rewrite session_unfold.
  destruct (run_normal es (init w canvas)) as [r Hr]. rewrite Hr.
  eexists _, _. split; [reflexivity|]. simpl.
  apply (run_invariant (fun st => (2 <? pixelRatio (renderer st))%float = false))
    with (es := es) (st := init w canvas); [|apply Math_min_cap|done].
  clear. intros e st r HP H.
  handler_cases e H; simpl; try done.
  - apply Math_min_cap.
  - by destruct (mixer st).
Qed.

(** * The load callback, again *)

Lemma Box3_expandByObject_no_geometry o :
  no_geometry o → ∀ w b, Box3_expandByObject w o b = b.
Proof.
  unfold no_geometry.
  induction o as [p cs IH] using Object3D_tree_ind. simpl.
  intros [Hp Hcs]%Forall_cons w b. rewrite Hp.
  generalize (Some (matrixWorld_of w p)). intros w'. revert b.
  induction IH as [|c r Hc _ IHr]; intros b; simpl in *; [done|].
  apply Forall_app in Hcs as [H1 H2]. rewrite (Hc H1). by apply IHr.
Qed.

(** X10.  A model without any geometry (bones and groups only) has an
    empty bounding box, whose height is minus infinity: the callback puts
    such a model at [position.y = +Infinity]. *)
Theorem onLoad_without_geometry gltf st :
  no_geometry (gltf_scene gltf) →
  ∃ fox,
    last_added (onLoad gltf st).1 = Some fox
    ∧ y (position (props_of fox)) = infinity.
Proof.
  intros Hno. destruct (onLoad_unfold gltf st) as (Hlast & _ & _).
  simpl in Hlast. eexists. split; [exact Hlast|].
  unfold Box3_setFromObject.
  rewrite (Box3_expandByObject_no_geometry _ Hno).
  destruct (gltf_scene gltf) as [p cs]. simpl.
  by destruct (is_standard_mesh _ _).
Qed.

Lemma onLoad_without_geometry_witness :
  no_geometry (gltf_scene bare_model)
  ∧ ∃ fox,
      last_added (onLoad bare_model (init sample_window sample_canvas)).1 = Some fox
      ∧ y (position (props_of fox)) = infinity.
Proof.
  assert (H : no_geometry (gltf_scene bare_model)) by (by repeat constructor).
  split; [exact H|].
  exact (onLoad_without_geometry bare_model (init sample_window sample_canvas) H).
Defined.

Lemma play_all_distinct cs :
  ∀ pre m,
    NoDup (List.map clip_uuid (pre ++ cs)) →
    mixer_actions m = List.map (fun c => mkAction c true) pre →
    mixer_actions (fold_left clipAction_play cs m)
    = List.map (fun c => mkAction c true) (pre ++ cs).
Proof.
  induction cs as [|c r IH]; intros pre m Hnd Hm; simpl.
  - by rewrite app_nil_r.
  - replace (pre ++ c :: r) with ((pre ++ [c]) ++ r) in * by (by rewrite <- app_assoc).
    apply IH; [done|]. unfold clipAction_play.
    assert (E : existsb (same_clip c) (mixer_actions m) = false).
    { apply not_true_is_false. intros (a & Hin & Ha)%List.existsb_exists.
      rewrite Hm in Hin. apply List.in_map_iff in Hin as (c' & <- & Hc').
      unfold same_clip in Ha. simpl in Ha. apply Nat.eqb_eq in Ha.
      rewrite !List.map_app in Hnd. apply NoDup_app in Hnd as [Hnd _].
      apply NoDup_app in Hnd as (_ & Hdis & _).
      apply (Hdis (clip_uuid c')).
      - apply list_elem_of_In, List.in_map, Hc'.
      - rewrite Ha. simpl. apply list_elem_of_here. }
    rewrite E. simpl. by rewrite Hm, List.map_app.
Qed.

(** X11.  When the clips of the loaded model are pairwise distinct, the
    mixer the callback builds has exactly one action per clip, in the
    order of [gltf.animations], each of them playing. *)
Theorem onLoad_plays_each_clip_once gltf st :
  NoDup (List.map clip_uuid (animations gltf)) →
  ∃ m,
    mixer (onLoad gltf st).1 = Some m
    ∧ mixer_actions m = List.map (fun c => mkAction c true) (animations gltf).
Proof.
  intros Hnd. rewrite onLoad_eq. simpl. eexists. split; [reflexivity|].
  by apply (play_all_distinct (animations gltf) []).
Qed.

Lemma onLoad_plays_each_clip_once_witness :
  NoDup (List.map clip_uuid (animations two_clip_model))
  ∧ ∃ m,
      mixer (onLoad two_clip_model (init sample_window sample_canvas)).1 = Some m
      ∧ mixer_actions m
        = List.map (fun c => mkAction c true) (animations two_clip_model).
Proof.
  assert (H : NoDup (List.map clip_uuid (animations two_clip_model))).
  { simpl. apply NoDup_cons. split; [|apply NoDup_singleton].
    intros E%list_elem_of_singleton. discriminate E. }
  split; [exact H|].
  exact (onLoad_plays_each_clip_once two_clip_model
           (init sample_window sample_canvas) H).
Defined.

Lemma run_frames ds :
  ∀ st m, mixer st = Some m →
    ∃ calls,
      run (List.map AnimationFrame ds) st
      = Normal (set_mixer
                  (Some (fold_left (fun m d => AnimationMixer_update d m) ds m)) st,
                calls)
      ∧ List.filter is_mixer_update calls = List.map Call_mixer_update ds.
Proof.
  induction ds as [|d r IH]; intros st m Hm; simpl.
  - exists []. split; [|done]. f_equal. f_equal. destruct st. simpl in *. by subst.
  - rewrite tick_cases, Hm. simpl.
    destruct (IH (set_mixer (Some (AnimationMixer_update d m)) st)
                 (AnimationMixer_update d m) eq_refl) as (calls & -> & Hc).
    simpl. eexists. split; [reflexivity|]. simpl. by rewrite Hc.
Qed.

Lemma mixer_time_frames ds m :
  mixer_time (fold_left (fun m d => AnimationMixer_update d m) ds m)
  = fold_left PrimFloat.add ds (mixer_time m).
Proof. revert m. induction ds as [|d r IH]; intros m; simpl; [done|]. by rewrite IH. Qed.

(** X12.  After a successful load, even of a model without clips, every
    frame advances the mixer before the frame is drawn: after frames with
    deltas [ds] the mixer's clock is their sum, added up from 0 in order,
    and the mixer has been updated once per frame with that frame's
    delta. *)
Theorem frames_after_load_advance_mixer gltf st ds :
  ∃ st' calls,
    run (List.map AnimationFrame ds) (onLoad gltf st).1 = Normal (st', calls)
    ∧ mixer_time <$> mixer st' = Some (fold_left PrimFloat.add ds 0%float)
    ∧ List.filter is_mixer_update calls = List.map Call_mixer_update ds.
Proof.
  destruct (onLoad_unfold gltf st) as (_ & Hm & _). simpl in Hm.
  destruct (run_frames ds _ _ Hm) as (calls & Hrun & Hcalls).
  eexists _, _. split; [exact Hrun|]. split; [|exact Hcalls].
  simpl. by rewrite mixer_time_frames, play_all_time.
Qed.

Lemma mark_no_mesh h o :
  Forall (fun p => instanceof_Mesh (obj_type p) = false) (nodes o) →
  mark h o = o ∧ matched_slots h o = [].
Proof.
  induction o as [p cs IH] using Object3D_tree_ind. simpl.
  intros [Hp Hcs]%Forall_cons. unfold is_standard_mesh. rewrite Hp. simpl.
  assert (E : List.map (mark h) cs = cs ∧ List.flat_map (matched_slots h) cs = []).
  { induction IH as [|c r Hc _ IHr]; simpl in *; [done|].
    apply Forall_app in Hcs as [H1 H2].
    destruct (Hc H1) as [-> ->]. by destruct (IHr H2) as [-> ->]. }
  by destruct E as [-> ->].
Qed.

(** X13.  When no node already in the scene is a mesh, as in the state
    the script sets up, the load callback leaves the scene root and its
    children exactly as they were and appends one child: the loaded scene
    with [position.y = -H/2] and scale 0.5, as a Material Updater pass
    over it alone leaves it.  The material store becomes the model's
    materials over the earlier ones, after that same pass. *)
Theorem onLoad_appends_placed_model gltf st :
  Forall (fun p => instanceof_Mesh (obj_type p) = false) (nodes (scene st)) →
  let box := Box3_setFromObject (gltf_scene gltf) in
  let H := (y (box_max box) - y (box_min box))%float in
  let placed := Object3D_set_scale (Vector3_set 0.5 0.5 0.5)
                  (Object3D_set_position_y (- H / 2)%float (gltf_scene gltf)) in
  let pass := updateAllMaterials (dbg_envMapIntensity (debugObject st)) placed
                (gltf_materials gltf ∪ materials st) in
  scene (onLoad gltf st).1 = Object3D_add pass.1 (scene st)
  ∧ materials (onLoad gltf st).1 = pass.2.
Proof.
  intros Hno. cbv zeta. rewrite onLoad_eq. cbv zeta.
  rewrite !updateAllMaterials_closed_form.
  set (h := gltf_materials gltf ∪ materials st). set (fox := Object3D_set_scale _ _).
  cbn [fst snd scene materials set_mixer set_graph].
  destruct (scene st) as [p cs]. simpl in Hno.
  apply Forall_cons in Hno as [Hp Hcs].
  assert (E : List.map (mark h) cs = cs ∧ List.flat_map (matched_slots h) cs = []).
  { clear -Hcs. induction cs as [|c r IHr]; simpl in *; [done|].
    apply Forall_app in Hcs as [H1 H2].
    destruct (mark_no_mesh h c H1) as [-> ->]. by destruct (IHr H2) as [-> ->]. }
  destruct E as [E1 E2].
  cbn [Object3D_add mark matched_slots]. unfold is_standard_mesh at 1 2.
  rewrite Hp. cbn [andb].
  rewrite List.map_app, List.flat_map_app, E1, E2. simpl.
  by rewrite app_nil_r.
Qed.

Lemma onLoad_appends_placed_model_witness :
  let st := init sample_window sample_canvas in
  let box := Box3_setFromObject (gltf_scene animated_model) in
  let H := (y (box_max box) - y (box_min box))%float in
  let placed := Object3D_set_scale (Vector3_set 0.5 0.5 0.5)
                  (Object3D_set_position_y (- H / 2)%float
                     (gltf_scene animated_model)) in
  let pass := updateAllMaterials (dbg_envMapIntensity (debugObject st)) placed
                (gltf_materials animated_model ∪ materials st) in
  Forall (fun p => instanceof_Mesh (obj_type p) = false) (nodes (scene st))
  ∧ scene (onLoad animated_model st).1 = Object3D_add pass.1 (scene st)
  ∧ materials (onLoad animated_model st).1 = pass.2.
Proof.
  cbv zeta.
  assert (H : Forall (fun p => instanceof_Mesh (obj_type p) = false)
                     (nodes (scene (init sample_window sample_canvas))))
    by (by repeat constructor).
  split; [exact H|].
  exact (onLoad_appends_placed_model animated_model
           (init sample_window sample_canvas) H).
Defined.
